(** * MagiskSU client ([native/jni/su/su.c]): handshake, relay start-up and
    signal teardown.

    The C code is embedded shallowly.  The process is a record holding the
    chronological log of the system and helper calls it has made, plus the
    little kernel state the code depends on.  Code that calls into the
    environment is written in a small state monad with early [exit] and an
    outcome of its own for undefined behaviour. *)

From Stdlib Require Import ZArith List String Ascii Bool Lia.
Import ListNotations.
Local Open Scope string_scope.
Local Open Scope list_scope.
Local Open Scope Z_scope.

(** ** Constants of headers that are not part of [su.c] *)

(** Values of the macros [su.c] takes from [magisk.h], [daemon.h], [su.h]
    and the build flags.  They are parameters of the whole development. *)
Record headers := {
  SUPERUSER : Z;              (* daemon request code *)
  UID_ROOT : Z;
  DEFAULT_SHELL : string;
  DENY : Z;
  ATTY_IN : Z;
  ATTY_OUT : Z;
  ATTY_ERR : Z;
  MAGISK_VERSION : string;    (* xstr(MAGISK_VERSION) *)
  MAGISK_VER_CODE : string    (* xstr(MAGISK_VER_CODE), also its %d rendering *)
}.

(** The three [ATTY_*] macros are used as independent bit flags
    ([atty |= ATTY_IN], [atty & ATTY_IN]). *)
Definition atty_flags_independent (h : headers) : Prop :=
  ATTY_IN h <> 0 /\ ATTY_OUT h <> 0 /\ ATTY_ERR h <> 0 /\
  Z.land (ATTY_IN h) (ATTY_OUT h) = 0 /\
  Z.land (ATTY_IN h) (ATTY_ERR h) = 0 /\
  Z.land (ATTY_OUT h) (ATTY_ERR h) = 0.

(** ** POSIX constants *)

Definition STDIN_FILENO : Z := 0.
Definition STDOUT_FILENO : Z := 1.
Definition STDERR_FILENO : Z := 2.
Definition EXIT_SUCCESS : Z := 0.

(** [ARG_MAX] of [<linux/limits.h>], and the range of [long] where it has
    64 bits. *)
Definition ARG_MAX : Z := 131072.
Definition LONG_MAX : Z := 2 ^ 63 - 1.
Definition LONG_MIN : Z := - 2 ^ 63.

Definition SIGHUP : Z := 1.
Definition SIGINT : Z := 2.
Definition SIGQUIT : Z := 3.
Definition SIGABRT : Z := 6.
Definition SIGPIPE : Z := 13.
Definition SIGALRM : Z := 14.
Definition SIGTERM : Z := 15.

(** [#define quit_signals ((int []) { SIGALRM, ..., SIGINT, 0 })] *)
Definition quit_signals : list Z :=
  [SIGALRM; SIGABRT; SIGHUP; SIGPIPE; SIGQUIT; SIGTERM; SIGINT; 0].

(** Unsigned and signed 32-bit conversion ([unsigned], [int]). *)
Definition to_unsigned (z : Z) : Z := z mod 2 ^ 32.
Definition to_int (z : Z) : Z := (z + 2 ^ 31) mod 2 ^ 32 - 2 ^ 31.

(** ** Process state *)

(** A function that can be installed as a signal handler.  [su.c] has one. *)
Inductive handler_fn := sighandler_ptr.

Inductive sa_handler :=
| SIG_DFL
| SIG_FN (f : handler_fn).

Inductive event :=
| EvPrint (stream : Z) (text : string)
| EvConnectDaemon (fd : Z)
| EvWriteInt (fd v : Z)
| EvXWrite (fd : Z) (words : list Z)
| EvWriteString (fd : Z) (s : string)
| EvIsatty (fd : Z) (tty : bool)
| EvPtsOpen (ptmx : Z) (slave : string)
| EvSendFd (sock fd : Z)
| EvReadInt (fd v : Z)
| EvSigaction (sig : Z) (act : sa_handler)
| EvPumpStdinAsync (ptmx : Z)
| EvWatchSigwinchAsync (fd ptmx : Z)
| EvPumpStdoutBlocking (ptmx : Z)
| EvSighandler (sig : Z)
| EvRestoreStdin
| EvClose (fd : Z).

Record proc := {
  log : list event;          (* calls made so far, oldest first *)
  stdin_raw : bool;          (* the terminal on stdin is in raw mode *)
  killed_by : option Z       (* terminated by this signal *)
}.

Definition init_proc : proc :=
  {| log := []; stdin_raw := false; killed_by := None |}.

Definition emit (e : event) (p : proc) : proc :=
  {| log := log p ++ [e]; stdin_raw := stdin_raw p; killed_by := killed_by p |}.

(** ** The monad: state over [proc], with process exit *)

(** How a computation ends: it returns, the process exits, or the program
    has left the ground the C standard defines (a write past the end of an
    array). *)
Inductive res (A : Type) :=
| Val (a : A)
| Exited (status : Z)
| Undefined.
Arguments Val {A} a.
Arguments Exited {A} status.
Arguments Undefined {A}.

Definition M (A : Type) : Type := proc -> res A * proc.

Definition ret {A} (a : A) : M A := fun p => (Val a, p).

Definition bind {A B} (m : M A) (k : A -> M B) : M B :=
  fun p =>
    match m p with
    | (Val a, p') => k a p'
    | (Exited s, p') => (Exited s, p')
    | (Undefined, p') => (Undefined, p')
    end.

Definition exit {A} (status : Z) : M A := fun p => (Exited status, p).

Definition undefined {A} : M A := fun p => (Undefined, p).

Definition call (e : event) : M unit := fun p => (Val tt, emit e p).

Declare Scope su_scope.
Delimit Scope su_scope with su.
Notation "x <- m ;; k" := (bind m (fun x => k))
  (at level 61, m at next level, right associativity) : su_scope.
Notation "m ;; k" := (bind m (fun _ => k))
  (at level 61, right associativity) : su_scope.
Local Open Scope su_scope.

Definition when (b : bool) (m : M unit) : M unit := if b then m else ret tt.

Definition exec {A} (m : M A) (p : proc) : proc := snd (m p).
Definition outcome {A} (m : M A) (p : proc) : res A := fst (m p).

(** ** Signal dispositions *)

(** The disposition table is what the [sigaction] calls made so far have
    left; a signal never passed to [sigaction] keeps [SIG_DFL]. *)
Definition disp_step (d : Z -> sa_handler) (e : event) : Z -> sa_handler :=
  match e with
  | EvSigaction sig act => fun s => if s =? sig then act else d s
  | _ => d
  end.

Definition disp_at (l : list event) : Z -> sa_handler :=
  fold_left disp_step l (fun _ => SIG_DFL).

Definition disposition (p : proc) (sig : Z) : sa_handler := disp_at (log p) sig.

Definition sigaction (sig : Z) (act : sa_handler) : M unit :=
  call (EvSigaction sig act).

Definition close (fd : Z) : M unit := call (EvClose fd).

(** Modelled from the spec: [restore_stdin] lives in [pts.c], which is not
    part of this file.  Per the spec's teardown description it "restores the
    real terminal to its original (pre-raw) mode if it had been put into raw
    mode for relaying". *)
Definition restore_stdin : M unit :=
  fun p =>
    (Val tt, {| log := log p ++ [EvRestoreStdin];
                stdin_raw := false;
                killed_by := killed_by p |}).

(** [for (int i = 0; quit_signals[i]; ++i) sigaction(quit_signals[i], &act, NULL);]
    over a zero-terminated array. *)
Fixpoint sigaction_each (arr : list Z) (act : sa_handler) : M unit :=
  match arr with
  | [] => ret tt
  | sig :: rest =>
      if sig =? 0 then ret tt
      else sigaction sig act ;; sigaction_each rest act
  end.

(** [static void sighandler(int sig)].  The first event only records that
    the handler was entered; the rest is the body. *)
Definition sighandler (sig : Z) : M unit :=
  call (EvSighandler sig) ;;
  restore_stdin ;;
  close STDIN_FILENO ;;
  close STDOUT_FILENO ;;
  close STDERR_FILENO ;;
  sigaction_each quit_signals SIG_DFL.

(** [static void setup_sighandlers(handler)], [handler] a pointer to a
    function from [int] to [void]. *)
Definition setup_sighandlers (handler : handler_fn) : M unit :=
  sigaction_each quit_signals (SIG_FN handler).

Definition run_handler (f : handler_fn) (sig : Z) : M unit :=
  match f with
  | sighandler_ptr => sighandler sig
  end.

(** Default action of a signal (signal(7)): everything terminates the
    process except SIGCHLD, SIGCONT, the stop signals, SIGURG and SIGWINCH. *)
Definition default_terminates (sig : Z) : bool :=
  negb (existsb (Z.eqb sig) [17; 18; 19; 20; 21; 22; 23; 28]).

(** Delivery of one signal to the process. *)
Definition deliver (sig : Z) (p : proc) : proc :=
  match killed_by p with
  | Some _ => p
  | None =>
      match disposition p sig with
      | SIG_FN f => exec (run_handler f sig) p
      | SIG_DFL =>
          if default_terminates sig
          then {| log := log p; stdin_raw := stdin_raw p; killed_by := Some sig |}
          else p
      end
  end.

Definition is_close_of (fd : Z) (e : event) : bool :=
  match e with
  | EvClose fd' => fd' =? fd
  | _ => false
  end.

(** The process has closed descriptor [fd]. *)
Definition has_closed (p : proc) (fd : Z) : bool := existsb (is_close_of fd) (log p).

Definition is_sighandler_run (e : event) : bool :=
  match e with
  | EvSighandler _ => true
  | _ => false
  end.

(** Number of times the user-level handler has been entered. *)
Definition handler_runs (p : proc) : nat :=
  List.length (filter is_sighandler_run (log p)).

(** ** The elevation request *)

(** [struct su_request] is declared in [su.h]: four [unsigned] scalars and
    two strings, listed here in the order of the initialiser that
    [su_client_main] uses. *)
Record su_request := {
  uid : Z;
  login : Z;
  keepenv : Z;
  mount_master : Z;
  shell : string;
  command : string
}.

Definition set_uid (v : Z) (r : su_request) : su_request :=
  {| uid := to_unsigned v; login := login r; keepenv := keepenv r;
     mount_master := mount_master r; shell := shell r; command := command r |}.
Definition set_login (v : Z) (r : su_request) : su_request :=
  {| uid := uid r; login := v; keepenv := keepenv r;
     mount_master := mount_master r; shell := shell r; command := command r |}.
Definition set_keepenv (v : Z) (r : su_request) : su_request :=
  {| uid := uid r; login := login r; keepenv := v;
     mount_master := mount_master r; shell := shell r; command := command r |}.
Definition set_mount_master (v : Z) (r : su_request) : su_request :=
  {| uid := uid r; login := login r; keepenv := keepenv r;
     mount_master := v; shell := shell r; command := command r |}.
Definition set_shell (v : string) (r : su_request) : su_request :=
  {| uid := uid r; login := login r; keepenv := keepenv r;
     mount_master := mount_master r; shell := v; command := command r |}.
Definition set_command (v : string) (r : su_request) : su_request :=
  {| uid := uid r; login := login r; keepenv := keepenv r;
     mount_master := mount_master r; shell := shell r; command := v |}.

(** The first [4 * sizeof(unsigned)] bytes of the structure, as the four
    words they hold. *)
Definition scalar_words (r : su_request) : list Z :=
  [uid r; login r; keepenv r; mount_master r].

(** ** libc string helpers *)

Definition nl : string := String (ascii_of_nat 10) EmptyString.

Definition is_space (c : ascii) : bool :=
  let n := nat_of_ascii c in
  (Nat.eqb n 32 || (Nat.leb 9 n && Nat.leb n 13))%bool.

Definition digit_of (c : ascii) : option Z :=
  let n := nat_of_ascii c in
  if (Nat.leb 48 n && Nat.leb n 57)%bool then Some (Z.of_nat (n - 48)) else None.

Fixpoint skip_spaces (s : string) : string :=
  match s with
  | String c r => if is_space c then skip_spaces r else s
  | EmptyString => s
  end.

(** Value of the longest prefix of decimal digits, continuing from [acc]. *)
Fixpoint digits (s : string) (acc : Z) : Z :=
  match s with
  | String c r =>
      match digit_of c with
      | Some d => digits r (10 * acc + d)
      | None => acc
      end
  | EmptyString => acc
  end.

(** [strtol(s, NULL, 10)]: optional white space, optional sign, decimal
    digits; no digits give 0, and a value outside [long] is replaced by
    [LONG_MIN] or [LONG_MAX]. *)
Definition strtol (s : string) : Z :=
  match skip_spaces s with
  | String "-"%char r => Z.max LONG_MIN (- digits r 0)
  | String "+"%char r => Z.min LONG_MAX (digits r 0)
  | t => Z.min LONG_MAX (digits t 0)
  end.

(** [atoi] of the C library: [(int) strtol(s, NULL, 10)]. *)
Definition atoi (s : string) : Z := to_int (strtol s).

(** The arguments [concat_commands] walks over, [argv[optind - 1 .. argc - 1]]. *)
Definition command_args (argc : nat) (argv : list string) (optind : nat) : list string :=
  firstn (argc - (optind - 1)) (skipn (optind - 1) argv).

(** A string and its terminator fit [char command[ARG_MAX]]. *)
Definition fits_command (s : string) : bool :=
  Z.of_nat (String.length s) <? ARG_MAX.

(** One round of the loop of [concat_commands] on the content of [command]:
    [sprintf(command, "%s %s", command, argv[i])] when [command[0]] is set,
    [strcpy(command, argv[i])] otherwise.  The destination of that [sprintf]
    is also its first source, which the C standard leaves undefined, so what
    it leaves in [command] is the C library's to say: [sprintf] is that
    answer.  [None] stands for a write past the end of [command]. *)
Definition join_step (sprintf : string -> string -> string)
    (command : option string) (arg : string) : option string :=
  match command with
  | None => None
  | Some c =>
      let c' := match c with
                | String _ _ => sprintf c arg
                | EmptyString => arg
                end in
      if fits_command c' then Some c' else None
  end.

(** [static char *concat_commands(int argc, char *argv[])], from
    [command[0] = 0] to the [strdup] of what the loop has left. *)
Definition concat_commands (sprintf : string -> string -> string)
    (argc : nat) (argv : list string) (optind : nat) : option string :=
  fold_left (join_step sprintf) (command_args argc argv optind) (Some EmptyString).

(** A [sprintf] that copies its overlapping source where it lies, as the
    plain implementations do. *)
Definition sprintf_in_place (command arg : string) : string :=
  (command ++ " " ++ arg)%string.

(** The first loop of [su_client_main]: [-cn] becomes [-z], [-mm] becomes [-M]. *)
Definition legacy_flag (arg : string) : string :=
  if String.eqb arg "-cn" then "-z"
  else if String.eqb arg "-mm" then "-M"
  else arg.

(** ** The environment of one run *)

(** What one call of [getopt_long] answers: the option character ([None] is
    [-1]), [optarg], and [optind] and the (possibly permuted) [argv] it
    leaves behind. *)
Record getopt_ret := {
  go_c : option ascii;
  go_optarg : string;
  go_optind : nat;
  go_argv : list string
}.

Record world := {
  w_argv : list string;                (* argv; argc is its length *)
  w_getopt : list getopt_ret;          (* answers of successive getopt_long calls *)
  w_getpwnam : string -> option Z;     (* pw_uid of the entry found, if any *)
  w_sprintf : string -> string -> string;
                                       (* what sprintf(command, "%s %s", command, arg)
                                          leaves in command *)
  w_isatty : Z -> bool;
  w_connect_daemon : Z;                (* descriptor of the daemon socket *)
  w_pts_open : Z * string;             (* return value, and the slave name left in the buffer *)
  w_uninit : Z;                        (* content of [ptmx] while not assigned *)
  w_read_int : nat -> Z                (* integer the n-th read_int returns *)
}.

Record parse_state := {
  su_req : su_request;
  optind : nat;
  argv : list string
}.

Definition is_read_int (e : event) : bool :=
  match e with
  | EvReadInt _ _ => true
  | _ => false
  end.

Section Client.

Variable hdr : headers.
Variable w : world.

(** *** Helpers of other files and of libc, as calls into the environment *)

Definition connect_daemon : M Z :=
  call (EvConnectDaemon (w_connect_daemon w)) ;; ret (w_connect_daemon w).

Definition write_int (fd v : Z) : M unit := call (EvWriteInt fd v).
Definition xwrite (fd : Z) (words : list Z) : M unit := call (EvXWrite fd words).
Definition write_string (fd : Z) (s : string) : M unit := call (EvWriteString fd s).
Definition send_fd (sock fd : Z) : M unit := call (EvSendFd sock fd).

Definition isatty (fd : Z) : M bool :=
  call (EvIsatty fd (w_isatty w fd)) ;; ret (w_isatty w fd).

Definition pts_open : M (Z * string) :=
  call (EvPtsOpen (fst (w_pts_open w)) (snd (w_pts_open w))) ;; ret (w_pts_open w).

Definition read_int (fd : Z) : M Z :=
  fun p =>
    let v := w_read_int w (List.length (filter is_read_int (log p))) in
    (Val v, emit (EvReadInt fd v) p).

Definition fprintf (stream : Z) (text : string) : M unit := call (EvPrint stream text).

Definition pump_stdin_async (ptmx : Z) : M unit := call (EvPumpStdinAsync ptmx).
Definition watch_sigwinch_async (fd ptmx : Z) : M unit := call (EvWatchSigwinchAsync fd ptmx).
Definition pump_stdout_blocking (ptmx : Z) : M unit := call (EvPumpStdoutBlocking ptmx).

(** *** [usage] *)

Definition usage_text : string :=
  String.concat EmptyString
    ["MagiskSU v"; MAGISK_VERSION hdr; "("; MAGISK_VER_CODE hdr; ")"; nl; nl;
     "Usage: su [options] [-] [user [argument...]]"; nl; nl;
     "Options:"; nl;
     "  -c, --command COMMAND         pass COMMAND to the invoked shell"; nl;
     "  -h, --help                    display this help message and exit"; nl;
     "  -, -l, --login                pretend the shell to be a login shell"; nl;
     "  -m, -p,"; nl;
     "  --preserve-environment        preserve the entire environment"; nl;
     "  -s, --shell SHELL             use SHELL instead of the default ";
     DEFAULT_SHELL hdr; nl;
     "  -v, --version                 display version number and exit"; nl;
     "  -V                            display version code and exit"; nl;
     "  -mm, -M,"; nl;
     "  --mount-master                force run in the global mount namespace"; nl].

Definition usage {A} (status : Z) : M A :=
  fprintf (if status =? EXIT_SUCCESS then STDOUT_FILENO else STDERR_FILENO) usage_text ;;
  exit status.

(** *** Option parsing: the [getopt_long] loop *)

Definition with_req (f : su_request -> su_request) (st : parse_state) : parse_state :=
  {| su_req := f (su_req st); optind := optind st; argv := argv st |}.

Fixpoint getopt_loop (argc : nat) (answers : list getopt_ret) (st : parse_state)
  : M parse_state :=
  match answers with
  | [] => ret st
  | a :: rest =>
      let st := {| su_req := su_req st; optind := go_optind a; argv := go_argv a |} in
      match go_c a with
      | None => ret st
      | Some c =>
          if Ascii.eqb c "c" then
            match concat_commands (w_sprintf w) argc (argv st) (optind st) with
            | Some command =>
                getopt_loop argc rest
                  {| su_req := set_command command (su_req st);
                     optind := argc;
                     argv := argv st |}
            | None => undefined
            end
          else if Ascii.eqb c "h" then usage EXIT_SUCCESS
          else if Ascii.eqb c "l" then getopt_loop argc rest (with_req (set_login 1) st)
          else if (Ascii.eqb c "m" || Ascii.eqb c "p")%bool then
            getopt_loop argc rest (with_req (set_keepenv 1) st)
          else if Ascii.eqb c "s" then
            getopt_loop argc rest (with_req (set_shell (go_optarg a)) st)
          else if Ascii.eqb c "V" then
            fprintf STDOUT_FILENO (MAGISK_VER_CODE hdr ++ nl)%string ;;
            exit EXIT_SUCCESS
          else if Ascii.eqb c "v" then
            fprintf STDOUT_FILENO (MAGISK_VERSION hdr ++ ":MAGISKSU (topjohnwu)" ++ nl)%string ;;
            exit EXIT_SUCCESS
          else if Ascii.eqb c "z" then getopt_loop argc rest st
          else if Ascii.eqb c "M" then
            getopt_loop argc rest (with_req (set_mount_master 1) st)
          else
            fprintf STDERR_FILENO nl ;;
            usage 2
      end
  end.

(** [if (optind < argc && strcmp(argv[optind], "-") == 0)] *)
Definition login_dash (argc : nat) (st : parse_state) : parse_state :=
  if (Nat.ltb (optind st) argc && String.eqb (nth (optind st) (argv st) EmptyString) "-")%bool
  then {| su_req := set_login 1 (su_req st); optind := S (optind st); argv := argv st |}
  else st.

(** The "username or uid" block. *)
Definition target_uid (argc : nat) (st : parse_state) : parse_state :=
  if Nat.ltb (optind st) argc then
    let arg := nth (optind st) (argv st) EmptyString in
    let v := match w_getpwnam w arg with
             | Some pw_uid => pw_uid
             | None => atoi arg
             end in
    {| su_req := set_uid v (su_req st); optind := S (optind st); argv := argv st |}
  else st.

Definition su_req_init : su_request :=
  {| uid := to_unsigned (UID_ROOT hdr);
     login := 0;
     keepenv := 0;
     mount_master := 0;
     shell := DEFAULT_SHELL hdr;
     command := EmptyString |}.

Definition parse_args : M parse_state :=
  let argc := List.length (w_argv w) in
  st <- getopt_loop argc (w_getopt w)
          {| su_req := su_req_init; optind := 1; argv := map legacy_flag (w_argv w) |} ;;
  ret (target_uid argc (login_dash argc st)).

(** *** Stream attachment *)

Definition atty_or (tty : bool) (flag atty : Z) : Z :=
  if tty then Z.lor atty flag else atty.

Definition atty_has (atty flag : Z) : bool := negb (Z.land atty flag =? 0).

(** *** [su_client_main] from the daemon connection on *)

Definition su_connect (req : su_request) : M Z :=
  (* Connect to client *)
  fd <- connect_daemon ;;
  (* Tell the daemon we are su *)
  write_int fd (SUPERUSER hdr) ;;
  (* Send su_request *)
  xwrite fd (scalar_words req) ;;
  write_string fd (shell req) ;;
  write_string fd (command req) ;;
  (* Determine which one of our streams are attached to a TTY *)
  tty_in <- isatty STDIN_FILENO ;;
  tty_out <- isatty STDOUT_FILENO ;;
  tty_err <- isatty STDERR_FILENO ;;
  let atty := atty_or tty_err (ATTY_ERR hdr)
                (atty_or tty_out (ATTY_OUT hdr)
                   (atty_or tty_in (ATTY_IN hdr) 0)) in
  pty <- (if negb (atty =? 0) then pts_open else ret (w_uninit w, EmptyString)) ;;
  let ptmx := fst pty in
  let pts_slave := snd pty in
  (* Send pts_slave *)
  write_string fd pts_slave ;;
  (* Send stdin, stdout, stderr *)
  send_fd fd (if atty_has atty (ATTY_IN hdr) then -1 else STDIN_FILENO) ;;
  send_fd fd (if atty_has atty (ATTY_OUT hdr) then -1 else STDOUT_FILENO) ;;
  send_fd fd (if atty_has atty (ATTY_ERR hdr) then -1 else STDERR_FILENO) ;;
  (* Wait for ack from daemon *)
  ack <- read_int fd ;;
  if negb (ack =? 0) then
    (* Fast fail *)
    fprintf STDERR_FILENO ("Permission denied" ++ nl)%string ;;
    ret (DENY hdr)
  else
    when (atty_has atty (ATTY_IN hdr))
      (setup_sighandlers sighandler_ptr ;;
       pump_stdin_async ptmx) ;;
    when (atty_has atty (ATTY_OUT hdr))
      (* Forward SIGWINCH *)
      (watch_sigwinch_async STDOUT_FILENO ptmx ;;
       pump_stdout_blocking ptmx) ;;
    (* Get the exit code *)
    code <- read_int fd ;;
    close fd ;;
    ret code.

(** [int su_client_main(int argc, char *argv[])] *)
Definition su_client_main : M Z :=
  st <- parse_args ;;
  su_connect (su_req st).

End Client.

(** ** Observations on a log *)

Definition is_print (e : event) : bool :=
  match e with EvPrint _ _ => true | _ => false end.
Definition is_connect (e : event) : bool :=
  match e with EvConnectDaemon _ => true | _ => false end.
Definition is_xwrite (e : event) : bool :=
  match e with EvXWrite _ _ => true | _ => false end.
Definition is_send_fd (e : event) : bool :=
  match e with EvSendFd _ _ => true | _ => false end.
Definition is_pts_open (e : event) : bool :=
  match e with EvPtsOpen _ _ => true | _ => false end.
Definition is_sigaction (e : event) : bool :=
  match e with EvSigaction _ _ => true | _ => false end.
Definition is_pump_stdin (e : event) : bool :=
  match e with EvPumpStdinAsync _ => true | _ => false end.
Definition is_watch_sigwinch (e : event) : bool :=
  match e with EvWatchSigwinchAsync _ _ => true | _ => false end.
Definition is_pump_stdout (e : event) : bool :=
  match e with EvPumpStdoutBlocking _ => true | _ => false end.

(** Anything written to the daemon socket, bytes or descriptors. *)
Definition is_conn_write (e : event) : bool :=
  match e with
  | EvWriteInt _ _ | EvXWrite _ _ | EvWriteString _ _ | EvSendFd _ _ => true
  | _ => false
  end.

(** The three duties of the relay. *)
Definition is_relay_task (e : event) : bool :=
  (is_pump_stdin e || is_watch_sigwinch e || is_pump_stdout e)%bool.

Definition conn_writes (l : list event) : list event := filter is_conn_write l.

(** Descriptors handed to [send_fd], in order. *)
Fixpoint sent_fds (l : list event) : list Z :=
  match l with
  | EvSendFd _ fd :: r => fd :: sent_fds r
  | _ :: r => sent_fds r
  | [] => []
  end.

(** Strings handed to [write_string], in order: shell, command, slave path. *)
Fixpoint sent_strings (l : list event) : list string :=
  match l with
  | EvWriteString _ s :: r => s :: sent_strings r
  | _ :: r => sent_strings r
  | [] => []
  end.

Definition slave_path_sent (l : list event) : option string :=
  nth_error (sent_strings l) 2.

(** Integers obtained from [read_int], in order: the daemon's ack, then the
    exit code. *)
Fixpoint reads (l : list event) : list Z :=
  match l with
  | EvReadInt _ v :: r => v :: reads r
  | _ :: r => reads r
  | [] => []
  end.

Definition ack_read (l : list event) : option Z := hd_error (reads l).

(** Descriptors passed to [close], in order. *)
Fixpoint closes (l : list event) : list Z :=
  match l with
  | EvClose fd :: r => fd :: closes r
  | _ :: r => closes r
  | [] => []
  end.


Fixpoint first_index (f : event -> bool) (l : list event) : option nat :=
  match l with
  | [] => None
  | e :: r => if f e then Some O else option_map S (first_index f r)
  end.

Fixpoint last_index (f : event -> bool) (l : list event) : option nat :=
  match l with
  | [] => None
  | e :: r =>
      match last_index f r with
      | Some i => Some (S i)
      | None => if f e then Some O else None
      end
  end.

(** Both kinds of call occur, and every [f] call is made before every [g]
    call. *)
Definition precedes (f g : event -> bool) (l : list event) : bool :=
  match last_index f l, first_index g l with
  | Some i, Some j => Nat.ltb i j
  | _, _ => false
  end.

(** The members of [quit_signals], as the spec lists them. *)
Definition terminating_signals : list Z :=
  [SIGINT; SIGHUP; SIGQUIT; SIGTERM; SIGALRM; SIGABRT; SIGPIPE].

(** The handler of [su.c] is in place for every terminating signal. *)
Definition teardown_armed (l : list event) : Prop :=
  forall sig, In sig terminating_signals -> disp_at l sig = SIG_FN sighandler_ptr.

(** A word that fits [unsigned]. *)
Definition fits_unsigned (v : Z) : Prop := 0 <= v < 2 ^ 32.


(** ** Whole runs *)

Definition run (hdr : headers) (w : world) : res Z * proc :=
  su_client_main hdr w init_proc.

Definition run_log (hdr : headers) (w : world) : list event := log (snd (run hdr w)).
Definition run_result (hdr : headers) (w : world) : res Z := fst (run hdr w).

(** The run got as far as the daemon connection. *)
Definition connected (hdr : headers) (w : world) : Prop :=
  existsb is_connect (run_log hdr w) = true.

(** The daemon's ack was read and was zero. *)
Definition granted (hdr : headers) (w : world) : Prop :=
  ack_read (run_log hdr w) = Some 0.

Definition any_tty (w : world) : bool :=
  (w_isatty w STDIN_FILENO || w_isatty w STDOUT_FILENO || w_isatty w STDERR_FILENO)%bool.

(** The argument in the "username or uid" position, if the command line has one. *)
Definition user_argument (hdr : headers) (w : world) : option string :=
  let argc := List.length (w_argv w) in
  match outcome (getopt_loop hdr w argc (w_getopt w)
                   {| su_req := su_req_init hdr; optind := 1;
                      argv := map legacy_flag (w_argv w) |}) init_proc with
  | Val st =>
      let st := login_dash argc st in
      if Nat.ltb (optind st) argc
      then Some (nth (optind st) (argv st) EmptyString)
      else None
  | _ => None
  end.

(** The target uid put on the wire: first word of the scalar block. *)
Definition uid_sent (l : list event) : option Z :=
  match filter is_xwrite l with
  | EvXWrite _ (v :: _) :: _ => Some v
  | _ => None
  end.

(** The value [atty] takes in a run that reaches the probe. *)
Definition atty_of (hdr : headers) (w : world) : Z :=
  atty_or (w_isatty w STDERR_FILENO) (ATTY_ERR hdr)
    (atty_or (w_isatty w STDOUT_FILENO) (ATTY_OUT hdr)
       (atty_or (w_isatty w STDIN_FILENO) (ATTY_IN hdr) 0)).

(** What [ptmx] and [pts_slave] hold once the slave name is sent. *)
Definition pty_of (hdr : headers) (w : world) : Z * string :=
  if negb (atty_of hdr w =? 0) then w_pts_open w else (w_uninit w, EmptyString).

(** The log of [su_client_main] up to and including the read of the ack. *)
Definition handshake_log (hdr : headers) (w : world) (req : su_request) : list event :=
  let fd := w_connect_daemon w in
  let atty := atty_of hdr w in
  [EvConnectDaemon fd;
   EvWriteInt fd (SUPERUSER hdr);
   EvXWrite fd (scalar_words req);
   EvWriteString fd (shell req);
   EvWriteString fd (command req);
   EvIsatty STDIN_FILENO (w_isatty w STDIN_FILENO);
   EvIsatty STDOUT_FILENO (w_isatty w STDOUT_FILENO);
   EvIsatty STDERR_FILENO (w_isatty w STDERR_FILENO)]
  ++ (if negb (atty =? 0)
      then [EvPtsOpen (fst (w_pts_open w)) (snd (w_pts_open w))] else [])
  ++ [EvWriteString fd (snd (pty_of hdr w));
      EvSendFd fd (if atty_has atty (ATTY_IN hdr) then -1 else STDIN_FILENO);
      EvSendFd fd (if atty_has atty (ATTY_OUT hdr) then -1 else STDOUT_FILENO);
      EvSendFd fd (if atty_has atty (ATTY_ERR hdr) then -1 else STDERR_FILENO);
      EvReadInt fd (w_read_int w 0)].

(** The log of the two [if] blocks that start the relay. *)
Definition relay_log (hdr : headers) (w : world) : list event :=
  let atty := atty_of hdr w in
  let ptmx := fst (pty_of hdr w) in
  (if atty_has atty (ATTY_IN hdr)
   then map (fun sig => EvSigaction sig (SIG_FN sighandler_ptr))
          [SIGALRM; SIGABRT; SIGHUP; SIGPIPE; SIGQUIT; SIGTERM; SIGINT]
        ++ [EvPumpStdinAsync ptmx]
   else [])
  ++ (if atty_has atty (ATTY_OUT hdr)
      then [EvWatchSigwinchAsync STDOUT_FILENO ptmx; EvPumpStdoutBlocking ptmx]
      else []).

(** The log of everything after the ack. *)
Definition epilogue_log (hdr : headers) (w : world) : list event :=
  if negb (w_read_int w 0 =? 0)
  then [EvPrint STDERR_FILENO ("Permission denied" ++ nl)%string]
  else relay_log hdr w
       ++ [EvReadInt (w_connect_daemon w) (w_read_int w 1); EvClose (w_connect_daemon w)].

(** ** Properties of a log that the theorems below speak about *)

(** From the first relay task on, the teardown handler is in place at every
    point of the log. *)
Definition relay_under_teardown (l : list event) : Prop :=
  forall n, existsb is_relay_task (firstn n l) = true -> teardown_armed (firstn n l).


(** ** Concrete environments *)

Definition sample_headers : headers :=
  {| SUPERUSER := 5;
     UID_ROOT := 0;
     DEFAULT_SHELL := "/system/bin/sh";
     DENY := 1;
     ATTY_IN := 1;
     ATTY_OUT := 2;
     ATTY_ERR := 4;
     MAGISK_VERSION := "16.0";
     MAGISK_VER_CODE := "1600" |}.

(** [su] with no argument; the streams are terminals as [i], [o], [e] say;
    the daemon answers [ack] and then exit code 42. *)
Definition sample_world (i o e : bool) (ack : Z) : world :=
  {| w_argv := ["su"];
     w_getopt := [ {| go_c := None; go_optarg := EmptyString;
                      go_optind := 1; go_argv := ["su"] |} ];
     w_getpwnam := fun _ => None;
     w_sprintf := sprintf_in_place;
     w_isatty := fun fd => if fd =? 0 then i else if fd =? 1 then o else e;
     w_connect_daemon := 3;
     w_pts_open := (4, "/dev/pts/0");
     w_uninit := 0;
     w_read_int := fun n => match n with O => ack | _ => 42 end |}.

(** [su ARG] with no terminal; [shell] is the only name in the user database. *)
Definition user_world (arg : string) : world :=
  {| w_argv := ["su"; arg];
     w_getopt := [ {| go_c := None; go_optarg := EmptyString;
                      go_optind := 1; go_argv := ["su"; arg] |} ];
     w_getpwnam := fun name => if String.eqb name "shell" then Some 2000 else None;
     w_sprintf := sprintf_in_place;
     w_isatty := fun _ => false;
     w_connect_daemon := 3;
     w_pts_open := (4, "/dev/pts/0");
     w_uninit := 0;
     w_read_int := fun n => match n with O => 0 | _ => 42 end |}.

(** [su -h] on a terminal. *)
Definition help_world : world :=
  {| w_argv := ["su"; "-h"];
     w_getopt := [ {| go_c := Some "h"%char; go_optarg := EmptyString;
                      go_optind := 2; go_argv := ["su"; "-h"] |} ];
     w_getpwnam := fun _ => None;
     w_sprintf := sprintf_in_place;
     w_isatty := fun _ => true;
     w_connect_daemon := 3;
     w_pts_open := (4, "/dev/pts/0");
     w_uninit := 0;
     w_read_int := fun _ => 0 |}.

(** A process whose terminal is raw and whose teardown handler is armed. *)
Definition armed_proc : proc :=
  {| log := log (exec (setup_sighandlers sighandler_ptr) init_proc);
     stdin_raw := true;
     killed_by := None |}.

(** ** Shapes of computations *)

(** A computation that returns without touching the process, or prints
    and exits, or runs into undefined behaviour before it has done
    anything. *)
Definition quiet_or_exits {A} (m : M A) : Prop :=
  forall p,
    (exists a, m p = (Val a, p)) \/
    (exists status prints,
        m p = (Exited status,
               {| log := log p ++ prints; stdin_raw := stdin_raw p;
                  killed_by := killed_by p |}) /\
        forallb is_print prints = true) \/
    m p = (Undefined, p).

(** A computation that prints and exits. *)
Definition exits_printing {A} (m : M A) : Prop :=
  forall p,
    exists status prints,
      m p = (Exited status,
             {| log := log p ++ prints; stdin_raw := stdin_raw p;
                killed_by := killed_by p |}) /\
      forallb is_print prints = true.

(** The scalars of the request fit [unsigned]. *)
Definition scalars_fit (r : su_request) : Prop :=
  Forall fits_unsigned (scalar_words r).

(** ** Further observations *)

Fixpoint drop_leading_empty (l : list string) : list string :=
  match l with
  | EmptyString :: r => drop_leading_empty r
  | _ => l
  end.

(** The answers of [getopt_long] that carry an option: those before its
    first -1. *)
Fixpoint answered (answers : list getopt_ret) : list getopt_ret :=
  match answers with
  | [] => []
  | a :: r =>
      match go_c a with
      | Some _ => a :: answered r
      | None => []
      end
  end.

Definition has_option (ch : ascii) (a : getopt_ret) : bool :=
  match go_c a with
  | Some c => Ascii.eqb c ch
  | None => false
  end.

(** The last answer that carries option [ch]. *)
Fixpoint last_option (ch : ascii) (l : list getopt_ret) : option getopt_ret :=
  match l with
  | [] => None
  | a :: r =>
      match last_option ch r with
      | Some b => Some b
      | None => if has_option ch a then Some a else None
      end
  end.

(** Option characters whose [case] goes on with the loop. *)
Definition option_continues (c : ascii) : bool :=
  (Ascii.eqb c "c" || Ascii.eqb c "l" || Ascii.eqb c "m" || Ascii.eqb c "p"
   || Ascii.eqb c "s" || Ascii.eqb c "z" || Ascii.eqb c "M")%bool.

(** Option characters whose [case] prints and exits with [EXIT_SUCCESS]. *)
Definition option_reports (c : ascii) : bool :=
  (Ascii.eqb c "h" || Ascii.eqb c "V" || Ascii.eqb c "v")%bool.

(** An answer whose [case] goes on with the loop. *)
Definition answer_continues (a : getopt_ret) : bool :=
  match go_c a with
  | Some c => option_continues c
  | None => false
  end.

(** What [concat_commands] makes at this answer fits [command[ARG_MAX]];
    true of an answer that is not [-c]. *)
Definition command_fits (w : world) (a : getopt_ret) : bool :=
  (negb (has_option "c" a)
   || match concat_commands (w_sprintf w) (List.length (w_argv w))
              (go_argv a) (go_optind a) with
      | Some _ => true
      | None => false
      end)%bool.


(** What [-h], [-V] and [-v] print. *)
Definition report_text (hdr : headers) (c : ascii) : string :=
  if Ascii.eqb c "h" then usage_text hdr
  else if Ascii.eqb c "V" then (MAGISK_VER_CODE hdr ++ nl)%string
  else (MAGISK_VERSION hdr ++ ":MAGISKSU (topjohnwu)" ++ nl)%string.

(** The state [su_client_main] is in when the [getopt_long] loop is left. *)
Definition after_getopt (hdr : headers) (w : world) : res parse_state :=
  outcome (getopt_loop hdr w (List.length (w_argv w)) (w_getopt w)
             {| su_req := su_req_init hdr; optind := 1;
                argv := map legacy_flag (w_argv w) |}) init_proc.

(** The first argument left after the options is a bare [-]. *)
Definition dash_given (hdr : headers) (w : world) : bool :=
  match after_getopt hdr w with
  | Val st =>
      (Nat.ltb (optind st) (List.length (w_argv w))
       && String.eqb (nth (optind st) (argv st) EmptyString) "-")%bool
  | _ => false
  end.

(** The four scalars put on the wire. *)
Definition scalars_sent (l : list event) : option (list Z) :=
  match filter is_xwrite l with
  | EvXWrite _ words :: _ => Some words
  | _ => None
  end.

(** The socket a call reads from or writes to. *)
Definition socket_of (e : event) : option Z :=
  match e with
  | EvWriteInt fd _ | EvXWrite fd _ | EvWriteString fd _
  | EvSendFd fd _ | EvReadInt fd _ => Some fd
  | _ => None
  end.

(** The master descriptor a relay task is started on. *)
Definition ptmx_of (e : event) : option Z :=
  match e with
  | EvPumpStdinAsync m | EvWatchSigwinchAsync _ m | EvPumpStdoutBlocking m => Some m
  | _ => None
  end.

Fixpoint all_digits (s : string) : bool :=
  match s with
  | EmptyString => true
  | String c r =>
      match digit_of c with
      | Some _ => all_digits r
      | None => false
      end
  end.

Definition starts_with_digit (s : string) : bool :=
  match s with
  | String c _ => match digit_of c with Some _ => true | None => false end
  | EmptyString => false
  end.

(** [su -s /bin/bash -p -mm -c id -u] without a terminal. *)
Definition command_world : world :=
  let args := ["su"; "-s"; "/bin/bash"; "-p"; "-M"; "-c"; "id"; "-u"] in
  {| w_argv := ["su"; "-s"; "/bin/bash"; "-p"; "-mm"; "-c"; "id"; "-u"];
     w_getopt :=
       [ {| go_c := Some "s"%char; go_optarg := "/bin/bash"; go_optind := 3; go_argv := args |};
         {| go_c := Some "p"%char; go_optarg := EmptyString; go_optind := 4; go_argv := args |};
         {| go_c := Some "M"%char; go_optarg := EmptyString; go_optind := 5; go_argv := args |};
         {| go_c := Some "c"%char; go_optarg := "id"; go_optind := 7; go_argv := args |};
         {| go_c := None; go_optarg := EmptyString; go_optind := 8; go_argv := args |} ];
     w_getpwnam := fun _ => None;
     w_sprintf := sprintf_in_place;
     w_isatty := fun _ => false;
     w_connect_daemon := 3;
     w_pts_open := (4, "/dev/pts/0");
     w_uninit := 0;
     w_read_int := fun n => match n with O => 0 | _ => 42 end |}.

(** [su -p -u]: [u] is in the option string but has no [case]. *)
Definition stray_option_world : world :=
  {| w_argv := ["su"; "-p"; "-u"];
     w_getopt :=
       [ {| go_c := Some "p"%char; go_optarg := EmptyString; go_optind := 2;
            go_argv := ["su"; "-p"; "-u"] |};
         {| go_c := Some "u"%char; go_optarg := EmptyString; go_optind := 3;
            go_argv := ["su"; "-p"; "-u"] |} ];
     w_getpwnam := fun _ => None;
     w_sprintf := sprintf_in_place;
     w_isatty := fun _ => true;
     w_connect_daemon := 3;
     w_pts_open := (4, "/dev/pts/0");
     w_uninit := 0;
     w_read_int := fun _ => 0 |}.

(** [su -l -V]. *)
Definition version_world : world :=
  {| w_argv := ["su"; "-l"; "-V"];
     w_getopt :=
       [ {| go_c := Some "l"%char; go_optarg := EmptyString; go_optind := 2;
            go_argv := ["su"; "-l"; "-V"] |};
         {| go_c := Some "V"%char; go_optarg := EmptyString; go_optind := 3;
            go_argv := ["su"; "-l"; "-V"] |} ];
     w_getpwnam := fun _ => None;
     w_sprintf := sprintf_in_place;
     w_isatty := fun _ => true;
     w_connect_daemon := 3;
     w_pts_open := (4, "/dev/pts/0");
     w_uninit := 0;
     w_read_int := fun _ => 0 |}.

(** [su - ARG] without a terminal; no name is in the user database. *)
Definition dash_world (arg : string) : world :=
  {| w_argv := ["su"; "-"; arg];
     w_getopt := [ {| go_c := None; go_optarg := EmptyString;
                      go_optind := 1; go_argv := ["su"; "-"; arg] |} ];
     w_getpwnam := fun _ => None;
     w_sprintf := sprintf_in_place;
     w_isatty := fun _ => false;
     w_connect_daemon := 3;
     w_pts_open := (4, "/dev/pts/0");
     w_uninit := 0;
     w_read_int := fun n => match n with O => 0 | _ => 42 end |}.

(** All three streams on a terminal, and [pts_open] fails. *)
Definition no_pty_world : world :=
  {| w_argv := ["su"];
     w_getopt := [];
     w_getpwnam := fun _ => None;
     w_sprintf := sprintf_in_place;
     w_isatty := fun _ => true;
     w_connect_daemon := 3;
     w_pts_open := (-1, EmptyString);
     w_uninit := 0;
     w_read_int := fun n => match n with O => 0 | _ => 42 end |}.

(** A process that has a handler of its own on SIGWINCH (28). *)
Definition winch_proc : proc :=
  emit (EvSigaction 28 (SIG_FN sighandler_ptr)) init_proc.

(** ** Claims the code does not meet, as the spec words them *)








(** * Proofs *)

(** ** Stream-attachment flags *)

Section Flags.

Variable hdr : headers.
Variable w : world.
Hypothesis indep : atty_flags_independent hdr.

Lemma land_flag_join (a f g : Z) :
  Z.land f g = 0 -> Z.land (Z.lor a f) g = Z.land a g.
Proof.
  intros Hfg. rewrite Z.land_lor_distr_l, Hfg. apply Z.lor_0_r.
Qed.

Lemma land_flag_hit (a f : Z) :
  f <> 0 -> Z.land (Z.lor a f) f <> 0.
Proof.
  intros Hf Hz. apply Hf.
  rewrite Z.land_lor_distr_l, Z.land_diag in Hz.
  apply Z.lor_eq_0_iff in Hz. tauto.
Qed.

Lemma atty_has_in :
  atty_has (atty_of hdr w) (ATTY_IN hdr) = w_isatty w STDIN_FILENO.
Proof.
  destruct indep as (Hi & Ho & He & Hio & Hie & Hoe).
  unfold atty_of, atty_has, atty_or.
  assert (Hoi : Z.land (ATTY_OUT hdr) (ATTY_IN hdr) = 0) by (rewrite Z.land_comm; exact Hio).
  assert (Hei : Z.land (ATTY_ERR hdr) (ATTY_IN hdr) = 0) by (rewrite Z.land_comm; exact Hie).
  destruct (w_isatty w STDERR_FILENO), (w_isatty w STDOUT_FILENO),
    (w_isatty w STDIN_FILENO);
    rewrite ?(land_flag_join _ _ _ Hei), ?(land_flag_join _ _ _ Hoi), ?Z.land_0_l;
    try reflexivity;
    apply negb_true_iff, Z.eqb_neq, land_flag_hit; exact Hi.
Qed.

Lemma atty_has_out :
  atty_has (atty_of hdr w) (ATTY_OUT hdr) = w_isatty w STDOUT_FILENO.
Proof.
  destruct indep as (Hi & Ho & He & Hio & Hie & Hoe).
  unfold atty_of, atty_has, atty_or.
  assert (Heo : Z.land (ATTY_ERR hdr) (ATTY_OUT hdr) = 0) by (rewrite Z.land_comm; exact Hoe).
  destruct (w_isatty w STDERR_FILENO), (w_isatty w STDOUT_FILENO),
    (w_isatty w STDIN_FILENO);
    rewrite ?(land_flag_join _ _ _ Heo), ?Z.lor_0_l, ?Hio, ?Z.land_0_l;
    try reflexivity;
    apply negb_true_iff, Z.eqb_neq;
    first [ apply land_flag_hit; exact Ho | rewrite Z.land_diag; exact Ho ].
Qed.

Lemma atty_has_err :
  atty_has (atty_of hdr w) (ATTY_ERR hdr) = w_isatty w STDERR_FILENO.
Proof.
  destruct indep as (Hi & Ho & He & Hio & Hie & Hoe).
  unfold atty_of, atty_has, atty_or.
  destruct (w_isatty w STDERR_FILENO), (w_isatty w STDOUT_FILENO),
    (w_isatty w STDIN_FILENO);
    rewrite ?(land_flag_join _ _ _ Hoe), ?Z.lor_0_l, ?Hie, ?Hoe, ?Z.land_0_l;
    try reflexivity;
    apply negb_true_iff, Z.eqb_neq;
    first [ apply land_flag_hit; exact He | rewrite Z.land_diag; exact He ].
Qed.

Lemma atty_nonzero : negb (atty_of hdr w =? 0) = any_tty w.
Proof.
  destruct indep as (Hi & Ho & He & _).
  unfold atty_of, atty_or, any_tty.
  destruct (w_isatty w STDERR_FILENO), (w_isatty w STDOUT_FILENO),
    (w_isatty w STDIN_FILENO); cbn [orb];
    try reflexivity;
    apply negb_true_iff, Z.eqb_neq; intros Hz;
    repeat (apply Z.lor_eq_0_iff in Hz; destruct Hz as [Hz ?]);
    congruence.
Qed.

End Flags.

(** ** The run from the daemon connection on *)

Lemma su_connect_run (hdr : headers) (w : world) (req : su_request) :
  su_connect hdr w req init_proc =
  (Val (if negb (w_read_int w 0 =? 0) then DENY hdr else w_read_int w 1),
   {| log := handshake_log hdr w req ++ epilogue_log hdr w;
      stdin_raw := false; killed_by := None |}).
Proof.
  unfold su_connect, handshake_log, epilogue_log, relay_log, pty_of, atty_of.
  cbv beta iota zeta delta
    [bind call ret emit connect_daemon write_int xwrite write_string send_fd
     isatty log stdin_raw killed_by init_proc fst snd].
  set (a := atty_or _ _ (atty_or _ _ (atty_or _ _ 0))).
  destruct (negb (a =? 0));
    destruct (atty_has a (ATTY_IN hdr));
    destruct (atty_has a (ATTY_OUT hdr));
    destruct (atty_has a (ATTY_ERR hdr));
    cbv beta iota zeta delta
    [bind call ret emit pts_open read_int app filter is_read_int List.length
     log stdin_raw killed_by fst snd];
    destruct (negb (w_read_int w 0 =? 0)); reflexivity.
Qed.

(** ** Option parsing *)

Section Parsing.

Variable hdr : headers.
Variable w : world.

Lemma exit_exits {A} (status : Z) : exits_printing (@exit A status).
Proof.
  intros p. exists status, []. split; [| reflexivity].
  unfold exit. destruct p; cbn. rewrite app_nil_r. reflexivity.
Qed.

Lemma fprintf_then_exits {A} (stream : Z) (text : string) (m : M A) :
  exits_printing m -> exits_printing (fprintf stream text ;; m).
Proof.
  intros Hm p.
  destruct (Hm (emit (EvPrint stream text) p)) as (status & prints & E & Hp).
  exists status, (EvPrint stream text :: prints). split; [| exact Hp].
  unfold bind, fprintf, call. rewrite E. cbn. rewrite <- app_assoc. reflexivity.
Qed.

Lemma usage_exits {A} (status : Z) : exits_printing (@usage hdr A status).
Proof. apply fprintf_then_exits, exit_exits. Qed.

Lemma exits_printing_quiet {A} (m : M A) : exits_printing m -> quiet_or_exits m.
Proof. intros Hm p. right. left. apply Hm. Qed.

Lemma getopt_loop_quiet (argc : nat) (answers : list getopt_ret) :
  forall st, quiet_or_exits (getopt_loop hdr w argc answers st).
Proof.
  induction answers as [| a rest IH]; intros st p.
  - left. eexists. reflexivity.
  - cbn [getopt_loop].
    destruct (go_c a) as [c |]; [| left; eexists; reflexivity].
    repeat match goal with
           | |- context [if ?b then _ else _] => destruct b
           end;
      try apply IH;
      try (destruct (concat_commands _ _ _ _);
           [apply IH | right; right; reflexivity]);
      apply exits_printing_quiet;
      repeat apply fprintf_then_exits;
      first [ apply usage_exits | apply exit_exits ].
Qed.

Lemma parse_args_quiet : quiet_or_exits (parse_args hdr w).
Proof.
  intros p. unfold parse_args, bind.
  destruct (getopt_loop_quiet (List.length (w_argv w)) (w_getopt w)
              {| su_req := su_req_init hdr; optind := 1;
                 argv := map legacy_flag (w_argv w) |} p)
    as [[st E] | [(s & prints & E & Hp) | E]]; rewrite E.
  - left. eexists. reflexivity.
  - right. left. exists s, prints. split; [reflexivity | exact Hp].
  - right. right. reflexivity.
Qed.

Lemma fits_unsigned_flag (v : Z) : v = 0 \/ v = 1 -> fits_unsigned v.
Proof. unfold fits_unsigned. intros [-> | ->]; lia. Qed.

Lemma to_unsigned_fits (z : Z) : fits_unsigned (to_unsigned z).
Proof. unfold fits_unsigned, to_unsigned. apply Z.mod_pos_bound. lia. Qed.

Lemma scalars_fit_intro (r : su_request) :
  fits_unsigned (uid r) -> fits_unsigned (login r) ->
  fits_unsigned (keepenv r) -> fits_unsigned (mount_master r) ->
  scalars_fit r.
Proof.
  intros. unfold scalars_fit, scalar_words.
  repeat (apply Forall_cons; [assumption |]). apply Forall_nil.
Qed.

Lemma scalars_fit_elim (r : su_request) :
  scalars_fit r ->
  fits_unsigned (uid r) /\ fits_unsigned (login r) /\
  fits_unsigned (keepenv r) /\ fits_unsigned (mount_master r).
Proof.
  unfold scalars_fit, scalar_words. intros H.
  inversion H as [| ? ? H1 H']; subst.
  inversion H' as [| ? ? H2 H'']; subst.
  inversion H'' as [| ? ? H3 H''']; subst.
  inversion H''' as [| ? ? H4 _]; subst.
  auto.
Qed.

Lemma getopt_loop_scalars (argc : nat) (answers : list getopt_ret) :
  forall st p st' p',
    scalars_fit (su_req st) ->
    getopt_loop hdr w argc answers st p = (Val st', p') ->
    scalars_fit (su_req st').
Proof.
  induction answers as [| a rest IH]; intros st p st' p' Hfit E.
  - cbn in E. injection E as <- _. exact Hfit.
  - cbn [getopt_loop] in E.
    destruct (scalars_fit_elim _ Hfit) as (Hu & Hl & Hk & Hm).
    destruct (go_c a) as [c |]; [| injection E as <- _; exact Hfit].
    repeat match type of E with
           | context [if ?b then _ else _] => destruct b
           end;
      try (destruct (concat_commands _ _ _ _));
      try discriminate E;
      (eapply IH; [| exact E]);
      apply scalars_fit_intro; cbn; try assumption;
      apply fits_unsigned_flag; auto.
Qed.

Lemma login_dash_scalars (argc : nat) (st : parse_state) :
  scalars_fit (su_req st) -> scalars_fit (su_req (login_dash argc st)).
Proof.
  intros Hfit. unfold login_dash.
  destruct (scalars_fit_elim _ Hfit) as (Hu & Hl & Hk & Hm).
  destruct (_ && _)%bool; [| exact Hfit].
  apply scalars_fit_intro; cbn; try assumption.
  apply fits_unsigned_flag; auto.
Qed.

Lemma target_uid_scalars (argc : nat) (st : parse_state) :
  scalars_fit (su_req st) -> scalars_fit (su_req (target_uid w argc st)).
Proof.
  intros Hfit. unfold target_uid.
  destruct (scalars_fit_elim _ Hfit) as (Hu & Hl & Hk & Hm).
  destruct (Nat.ltb _ _); [| exact Hfit].
  apply scalars_fit_intro; cbn; try assumption.
  apply to_unsigned_fits.
Qed.

Lemma parse_args_scalars (p p' : proc) (st : parse_state) :
  parse_args hdr w p = (Val st, p') -> scalars_fit (su_req st).
Proof.
  unfold parse_args, bind.
  destruct (getopt_loop _ _ _ _ _ p) as [[st0 | s |] p0] eqn:E;
    [| discriminate | discriminate].
  intros H. injection H as <- _.
  apply target_uid_scalars, login_dash_scalars.
  eapply getopt_loop_scalars; [| exact E].
  apply scalars_fit_intro; cbn;
    first [ apply to_unsigned_fits | apply fits_unsigned_flag; auto ].
Qed.

(** *** The three shapes of a whole run *)

Lemma run_shapes :
  (exists st,
      parse_args hdr w init_proc = (Val st, init_proc) /\
      run hdr w =
        (Val (if negb (w_read_int w 0 =? 0) then DENY hdr else w_read_int w 1),
         {| log := handshake_log hdr w (su_req st) ++ epilogue_log hdr w;
            stdin_raw := false; killed_by := None |})) \/
  (exists status prints,
      parse_args hdr w init_proc =
        (Exited status, {| log := prints; stdin_raw := false; killed_by := None |}) /\
      run hdr w =
        (Exited status, {| log := prints; stdin_raw := false; killed_by := None |}) /\
      forallb is_print prints = true) \/
  (parse_args hdr w init_proc = (Undefined, init_proc) /\
   run hdr w = (Undefined, init_proc)).
Proof.
  unfold run, su_client_main, bind.
  destruct (parse_args_quiet init_proc) as [[st E] | [(s & prints & E & Hp) | E]];
    rewrite E.
  - left. exists st. split; [reflexivity |]. apply su_connect_run.
  - right. left. exists s, prints. cbn. auto.
  - right. right. split; reflexivity.
Qed.

End Parsing.

(** ** Facts about whole runs *)

Lemma prints_only (l : list event) (f : event -> bool) :
  (forall e, is_print e = true -> f e = false) ->
  forallb is_print l = true -> filter f l = [].
Proof.
  intros Hf. induction l as [| e l IH]; cbn; [reflexivity |].
  intros H. apply andb_true_iff in H as [He Hl].
  rewrite (Hf e He). apply IH, Hl.
Qed.

Lemma prints_no_connect (l : list event) :
  forallb is_print l = true -> existsb is_connect l = false.
Proof.
  induction l as [| e l IH]; cbn; [reflexivity |].
  intros H. apply andb_true_iff in H as [He Hl].
  rewrite (IH Hl). destruct e; try discriminate He; reflexivity.
Qed.

Lemma prints_no_reads (l : list event) :
  forallb is_print l = true -> reads l = [].
Proof.
  induction l as [| e l IH]; cbn; [reflexivity |].
  intros H. apply andb_true_iff in H as [He Hl].
  destruct e; try discriminate He. apply IH, Hl.
Qed.

Ltac split_ifs :=
  repeat match goal with
         | |- context [if ?b then _ else _] => destruct b eqn:?
         end.

(** Splits a log that is known event by event in front of a given tail. *)
Ltac cut_log :=
  match goal with
  | |- exists pre, ?l = pre ++ ?tail =>
      exists (firstn (List.length l - List.length tail) l); reflexivity
  end.

(** The same, for a goal whose prefix is still to be chosen. *)
Ltac cut_log_at :=
  match goal with
  | |- ?l = _ ++ ?tail =>
      instantiate (1 := firstn (List.length l - List.length tail) l); reflexivity
  end.

Ltac open_log :=
  unfold handshake_log, epilogue_log, relay_log, pty_of.

Section Runs.

Variable hdr : headers.
Variable w : world.

Lemma connected_run :
  connected hdr w ->
  exists st,
    parse_args hdr w init_proc = (Val st, init_proc) /\
    run_log hdr w = handshake_log hdr w (su_req st) ++ epilogue_log hdr w /\
    run_result hdr w =
      Val (if negb (w_read_int w 0 =? 0) then DENY hdr else w_read_int w 1).
Proof.
  unfold connected, run_log, run_result.
  destruct (run_shapes hdr w)
    as [(st & Hp & E) | [(s & prints & _ & E & Hp) | [_ E]]];
    rewrite E; cbn [fst snd log].
  - intros _. exists st. auto.
  - rewrite (prints_no_connect _ Hp). discriminate.
  - discriminate.
Qed.

Lemma ack_read_handshake (req : su_request) :
  ack_read (handshake_log hdr w req ++ epilogue_log hdr w) = Some (w_read_int w 0).
Proof. open_log. split_ifs; reflexivity. Qed.

Lemma ack_read_run (v : Z) :
  ack_read (run_log hdr w) = Some v ->
  connected hdr w /\ w_read_int w 0 = v.
Proof.
  unfold connected, run_log.
  destruct (run_shapes hdr w)
    as [(st & Hp & E) | [(s & prints & _ & E & Hp) | [_ E]]];
    rewrite E; cbn [fst snd log].
  - rewrite ack_read_handshake. intros H. injection H as H. split; [| exact H].
    reflexivity.
  - unfold ack_read. rewrite (prints_no_reads _ Hp). discriminate.
  - discriminate.
Qed.

Lemma granted_run :
  granted hdr w ->
  connected hdr w /\ w_read_int w 0 = 0.
Proof. apply ack_read_run. Qed.

End Runs.

(** Case analysis on which of the three streams are terminals. *)
Ltac by_streams hdr w indep :=
  open_log;
  rewrite ?(atty_has_in hdr w indep), ?(atty_has_out hdr w indep),
    ?(atty_has_err hdr w indep), ?(atty_nonzero hdr w indep);
  unfold any_tty;
  destruct (w_isatty w STDIN_FILENO), (w_isatty w STDOUT_FILENO),
    (w_isatty w STDERR_FILENO).

(** ** The handshake *)

Section Handshake.

Variable hdr : headers.
Variable w : world.



(** C2. One request per connection, and the writes to the daemon socket in
    wire order: the request code, the four scalars as one block of four
    words that each fit [unsigned], the shell, the command, the slave path,
    then the three descriptors.  A run that ends in option parsing opens no
    connection and writes nothing. *)
Theorem request_wire_order :
  (forall status p,
      parse_args hdr w init_proc = (Exited status, p) ->
      filter is_connect (run_log hdr w) = [] /\ conn_writes (run_log hdr w) = []) /\
  (forall st p,
      parse_args hdr w init_proc = (Val st, p) ->
      let fd := w_connect_daemon w in
      let r := su_req st in
      exists slave a b c,
        filter is_connect (run_log hdr w) = [EvConnectDaemon fd] /\
        conn_writes (run_log hdr w) =
          [EvWriteInt fd (SUPERUSER hdr);
           EvXWrite fd [uid r; login r; keepenv r; mount_master r];
           EvWriteString fd (shell r);
           EvWriteString fd (command r);
           EvWriteString fd slave;
           EvSendFd fd a; EvSendFd fd b; EvSendFd fd c] /\
        Forall fits_unsigned [uid r; login r; keepenv r; mount_master r]).
Proof.
  unfold run_log.
  destruct (run_shapes hdr w)
    as [(st & Hp & E) | [(s & prints & Hp & E & Hpr) | [Hp E]]];
    rewrite E, Hp; cbn [fst snd log]; split; intros ? ? H; try discriminate H.
  - injection H as <- _.
    pose proof (parse_args_scalars hdr w _ _ _ Hp) as Hfit.
    open_log; unfold conn_writes; split_ifs; do 4 eexists;
      (split; [reflexivity |]); (split; [reflexivity |]); exact Hfit.
  - split; apply prints_only; try exact Hpr; intros [] He; try discriminate He; reflexivity.
Qed.

(** C3. A non-zero ack makes the client print the access-denied message
    on stderr and return [DENY]; no relay task is started, no handler is
    installed, and the ack is the only integer read from the connection. *)
Theorem denial_fast_fail (v : Z) :
  ack_read (run_log hdr w) = Some v ->
  v <> 0 ->
  run_result hdr w = Val (DENY hdr) /\
  (exists pre,
      run_log hdr w =
        pre ++ [EvReadInt (w_connect_daemon w) v;
                EvPrint STDERR_FILENO ("Permission denied" ++ nl)%string]) /\
  filter is_relay_task (run_log hdr w) = [] /\
  filter is_sigaction (run_log hdr w) = [] /\
  reads (run_log hdr w) = [v].
Proof.
  intros Hack Hv.
  destruct (ack_read_run hdr w v Hack) as [Hc <-].
  destruct (connected_run hdr w Hc) as (st & _ & -> & ->).
  apply Z.eqb_neq in Hv. rewrite Hv. cbn [negb].
  split; [reflexivity |].
  open_log. rewrite Hv. cbn [negb].
  split.
  - split_ifs; cbn [app]; cut_log.
  - split_ifs; cbn; auto.
Qed.

(** C4. On a run the daemon has let in, the exit code is the last integer
    read: the ack was read before it and nothing else was; the blocking
    output pump, which runs exactly when stdout is a terminal, has returned
    just before the read; and the integer read is what [su_client_main]
    returns. *)
Theorem exit_code_after_relay :
  atty_flags_independent hdr ->
  granted hdr w ->
  exists pre code,
    run_log hdr w =
      pre ++ [EvReadInt (w_connect_daemon w) code; EvClose (w_connect_daemon w)] /\
    run_result hdr w = Val code /\
    reads pre = [0] /\
    (w_isatty w STDOUT_FILENO = true ->
       exists before,
         pre = before ++ [EvPumpStdoutBlocking (fst (w_pts_open w))] /\
         filter is_pump_stdout before = []) /\
    (w_isatty w STDOUT_FILENO = false -> filter is_pump_stdout pre = []).
Proof.
  intros indep Hg.
  destruct (granted_run hdr w Hg) as [Hc Hack].
  destruct (connected_run hdr w Hc) as (st & _ & -> & ->).
  exists (handshake_log hdr w (su_req st) ++ relay_log hdr w), (w_read_int w 1).
  unfold epilogue_log. rewrite Hack. cbn [Z.eqb negb].
  split; [apply app_assoc |]. split; [reflexivity |].
  by_streams hdr w indep; rewrite Hack; cbn [negb orb app reads filter is_pump_stdout];
    (split; [reflexivity |]); split; intros H; try discriminate H;
    try reflexivity;
    eexists; (split; [cut_log_at | reflexivity]).
Qed.



End Handshake.

(** ** Target uid *)

Lemma digits_no_digit (s : string) (acc : Z) :
  match s with
  | String c _ => match digit_of c with Some _ => true | None => false end
  | EmptyString => false
  end = false ->
  digits s acc = acc.
Proof.
  destruct s as [| c r]; cbn [digits]; [reflexivity |].
  destruct (digit_of c); [discriminate | reflexivity].
Qed.


Lemma digit_of_nonneg (c : ascii) (d : Z) : digit_of c = Some d -> 0 <= d.
Proof.
  unfold digit_of. destruct (_ && _)%bool; [| discriminate].
  intros H. injection H as <-. lia.
Qed.

Lemma digits_nonneg (s : string) : forall acc, 0 <= acc -> 0 <= digits s acc.
Proof.
  induction s as [| c r IH]; intros acc Hacc; cbn [digits]; [exact Hacc |].
  destruct (digit_of c) as [d |] eqn:Hd; [| exact Hacc].
  apply IH. pose proof (digit_of_nonneg _ _ Hd). lia.
Qed.

Lemma digits_app (ds rest : string) :
  all_digits ds = true ->
  starts_with_digit rest = false ->
  forall acc, digits (ds ++ rest) acc = digits ds acc.
Proof.
  intros Hds Hrest. induction ds as [| c r IH]; intros acc.
  - cbn [append]. apply digits_no_digit. exact Hrest.
  - cbn [append digits all_digits] in *.
    destruct (digit_of c); [apply IH, Hds | reflexivity].
Qed.

Lemma atoi_digit_start (c : ascii) (r : string) :
  starts_with_digit (String c r) = true ->
  atoi (String c r) = to_int (Z.min LONG_MAX (digits (String c r) 0)).
Proof.
  destruct c as [[] [] [] [] [] [] [] []]; intros H;
    first [ cbn in H; discriminate H | reflexivity ].
Qed.

Lemma to_int_small (v : Z) : 0 <= v < 2 ^ 31 -> to_int v = v.
Proof. intros H. unfold to_int. rewrite Z.mod_small; lia. Qed.

Lemma to_unsigned_small (v : Z) : 0 <= v < 2 ^ 32 -> to_unsigned v = v.
Proof. intros H. unfold to_unsigned. apply Z.mod_small. lia. Qed.

(** What [atoi] makes of leading digits that spell a number below 2^31. *)
Lemma atoi_leading_digits (ds rest : string) :
  starts_with_digit ds = true ->
  all_digits ds = true ->
  starts_with_digit rest = false ->
  digits ds 0 < 2 ^ 31 ->
  to_unsigned (atoi (ds ++ rest)) = digits ds 0.
Proof.
  intros Hstart Hds Hrest Hsmall.
  pose proof (digits_nonneg ds 0 ltac:(lia)) as Hpos.
  destruct ds as [| c r]; [discriminate Hstart |].
  change (String c r ++ rest)%string with (String c (r ++ rest)%string).
  rewrite atoi_digit_start by exact Hstart.
  change (String c (r ++ rest)%string) with (String c r ++ rest)%string.
  rewrite (digits_app _ _ Hds Hrest).
  rewrite Z.min_r by (unfold LONG_MAX; lia).
  rewrite to_int_small, to_unsigned_small by lia. reflexivity.
Qed.

Section TargetUid.

Variable hdr : headers.
Variable w : world.

Lemma uid_sent_handshake (req : su_request) :
  uid_sent (handshake_log hdr w req ++ epilogue_log hdr w) = Some (uid req).
Proof. open_log. split_ifs; reflexivity. Qed.


End TargetUid.


(** ** Teardown *)

Lemma disp_at_app (l l' : list event) :
  disp_at (l ++ l') = fold_left disp_step l' (disp_at l).
Proof. unfold disp_at. apply fold_left_app. Qed.

(** The array holds exactly the seven signals of the spec before its
    terminator. *)
Lemma quit_signals_members (sig : Z) :
  In sig terminating_signals <-> In sig quit_signals /\ sig <> 0.
Proof.
  unfold terminating_signals, quit_signals, SIGALRM, SIGABRT, SIGHUP, SIGPIPE,
    SIGQUIT, SIGTERM, SIGINT.
  cbn [In]. split.
  - intros H. repeat (destruct H as [<- | H]; [split; [tauto | discriminate] |]).
    contradiction.
  - intros [H Hnz].
    repeat (destruct H as [<- | H]; [tauto |]). contradiction.
Qed.

Lemma sighandler_log (sig : Z) (p : proc) :
  log (exec (sighandler sig) p) =
  log p ++ [EvSighandler sig; EvRestoreStdin;
            EvClose STDIN_FILENO; EvClose STDOUT_FILENO; EvClose STDERR_FILENO;
            EvSigaction SIGALRM SIG_DFL; EvSigaction SIGABRT SIG_DFL;
            EvSigaction SIGHUP SIG_DFL; EvSigaction SIGPIPE SIG_DFL;
            EvSigaction SIGQUIT SIG_DFL; EvSigaction SIGTERM SIG_DFL;
            EvSigaction SIGINT SIG_DFL].
Proof. cbn. repeat rewrite <- app_assoc. reflexivity. Qed.

Lemma setup_sighandlers_log (f : handler_fn) (p : proc) :
  log (exec (setup_sighandlers f) p) =
  log p ++ map (fun sig => EvSigaction sig (SIG_FN f))
             [SIGALRM; SIGABRT; SIGHUP; SIGPIPE; SIGQUIT; SIGTERM; SIGINT].
Proof. cbn. repeat rewrite <- app_assoc. reflexivity. Qed.

Lemma setup_sighandlers_arms (p : proc) :
  teardown_armed (log (exec (setup_sighandlers sighandler_ptr) p)).
Proof.
  intros sig Hs. rewrite setup_sighandlers_log, disp_at_app.
  cbn in Hs.
  repeat (destruct Hs as [<- | Hs]; [reflexivity |]). contradiction.
Qed.

(** C6. The first terminating signal that reaches the armed process runs
    [sighandler] once: the terminal leaves raw mode, the three standard
    descriptors are closed, and every terminating signal is back to
    [SIG_DFL], in that order.  A second terminating signal then meets the
    default disposition: it kills the process and no handler code runs. *)
Theorem teardown_one_shot (p : proc) (s1 s2 : Z) :
  killed_by p = None ->
  teardown_armed (log p) ->
  In s1 terminating_signals ->
  In s2 terminating_signals ->
  let p1 := deliver s1 p in
  let p2 := deliver s2 p1 in
  log p1 =
    log p ++ [EvSighandler s1; EvRestoreStdin;
              EvClose STDIN_FILENO; EvClose STDOUT_FILENO; EvClose STDERR_FILENO]
          ++ map (fun sig => EvSigaction sig SIG_DFL)
               [SIGALRM; SIGABRT; SIGHUP; SIGPIPE; SIGQUIT; SIGTERM; SIGINT] /\
  stdin_raw p1 = false /\
  has_closed p1 STDIN_FILENO = true /\
  has_closed p1 STDOUT_FILENO = true /\
  has_closed p1 STDERR_FILENO = true /\
  (forall sig, In sig terminating_signals -> disposition p1 sig = SIG_DFL) /\
  handler_runs p1 = S (handler_runs p) /\
  killed_by p1 = None /\
  killed_by p2 = Some s2 /\
  log p2 = log p1 /\
  handler_runs p2 = handler_runs p1.
Proof.
  intros Halive Harmed H1 H2 p1 p2.
  assert (E1 : p1 = exec (sighandler s1) p).
  { unfold p1, deliver, disposition. rewrite Halive, (Harmed s1 H1). reflexivity. }
  assert (Hlog : log p1 =
    log p ++ [EvSighandler s1; EvRestoreStdin;
              EvClose STDIN_FILENO; EvClose STDOUT_FILENO; EvClose STDERR_FILENO]
          ++ map (fun sig => EvSigaction sig SIG_DFL)
               [SIGALRM; SIGABRT; SIGHUP; SIGPIPE; SIGQUIT; SIGTERM; SIGINT]).
  { rewrite E1. apply sighandler_log. }
  assert (Hdfl : forall sig, In sig terminating_signals -> disposition p1 sig = SIG_DFL).
  { intros sig Hs. unfold disposition. rewrite Hlog, disp_at_app.
    cbn in Hs.
    repeat (destruct Hs as [<- | Hs]; [reflexivity |]). contradiction. }
  assert (Hk1 : killed_by p1 = None).
  { rewrite E1. exact Halive. }
  assert (E2 : p2 = {| log := log p1; stdin_raw := stdin_raw p1; killed_by := Some s2 |}).
  { unfold p2, deliver. rewrite Hk1, (Hdfl s2 H2).
    cbn in H2.
    repeat (destruct H2 as [<- | H2]; [reflexivity |]). contradiction. }
  assert (Hclosed : forall fd, In fd [STDIN_FILENO; STDOUT_FILENO; STDERR_FILENO] ->
                             has_closed p1 fd = true).
  { intros fd Hfd. unfold has_closed. rewrite Hlog, !existsb_app.
    cbn in Hfd.
    repeat (destruct Hfd as [<- | Hfd];
            [cbn; rewrite ?orb_true_r; reflexivity |]).
    contradiction. }
  assert (Hruns : handler_runs p1 = S (handler_runs p)).
  { unfold handler_runs. rewrite Hlog, filter_app, length_app. cbn. lia. }
  split; [exact Hlog |].
  split; [rewrite E1; reflexivity |].
  split; [apply Hclosed; cbn; tauto |].
  split; [apply Hclosed; cbn; tauto |].
  split; [apply Hclosed; cbn; tauto |].
  split; [exact Hdfl |].
  split; [exact Hruns |].
  split; [exact Hk1 |].
  rewrite E2. repeat split.
Qed.

(** ** Teardown handler and relay start-up *)

Lemma existsb_firstn (f : event -> bool) (n : nat) (l : list event) :
  existsb f (firstn n l) = true -> existsb f l = true.
Proof.
  revert n. induction l as [| e l IH]; intros [| n]; cbn; try discriminate.
  intros H. apply orb_true_iff in H as [H | H].
  - rewrite H. reflexivity.
  - rewrite (IH n H). apply orb_true_r.
Qed.

Lemma filter_nil_firstn (f : event -> bool) (n : nat) (l : list event) :
  filter f l = [] -> filter f (firstn n l) = [].
Proof.
  revert n. induction l as [| e l IH]; intros [| n]; cbn; try reflexivity.
  destruct (f e); [discriminate |]. apply IH.
Qed.

Lemma disp_unchanged (l : list event) (d : Z -> sa_handler) :
  filter is_sigaction l = [] -> fold_left disp_step l d = d.
Proof.
  revert d. induction l as [| e l IH]; intros d; cbn; [reflexivity |].
  destruct e; cbn; try discriminate; intros H; apply IH, H.
Qed.

(** Once armed, the handler stays in place as long as [sigaction] is not
    called again. *)
Lemma armed_then_relay (pre post : list event) :
  existsb is_relay_task pre = false ->
  teardown_armed pre ->
  filter is_sigaction post = [] ->
  relay_under_teardown (pre ++ post).
Proof.
  intros Hpre Harmed Hpost n Hn sig Hs.
  rewrite firstn_app in Hn |- *.
  rewrite existsb_app in Hn. apply orb_true_iff in Hn as [Hn | Hn].
  - apply existsb_firstn in Hn. congruence.
  - assert (Hlen : (List.length pre <= n)%nat).
    { destruct (n - List.length pre)%nat eqn:E; [discriminate Hn | lia]. }
    rewrite (firstn_all2 pre Hlen), disp_at_app.
    rewrite disp_unchanged by (apply filter_nil_firstn, Hpost).
    apply Harmed, Hs.
Qed.

Section RelayStart.

Variable hdr : headers.
Variable w : world.

(** C7, as the code has it.  On a run the daemon has let in: when stdin is a
    terminal the input pump is started, and the teardown handler is in place
    for every terminating signal from before the first relay task on; when
    stdin is not a terminal [su_client_main] never calls [sigaction], also
    when the output pump and the resize watcher are started. *)
Theorem teardown_armed_with_input_pump :
  atty_flags_independent hdr ->
  granted hdr w ->
  (w_isatty w STDIN_FILENO = true ->
     existsb is_pump_stdin (run_log hdr w) = true /\
     relay_under_teardown (run_log hdr w)) /\
  (w_isatty w STDIN_FILENO = false ->
     filter is_sigaction (run_log hdr w) = [] /\
     existsb is_pump_stdout (run_log hdr w) = w_isatty w STDOUT_FILENO).
Proof.
  intros indep Hg.
  destruct (granted_run hdr w Hg) as [Hc Hack].
  destruct (connected_run hdr w Hc) as (st & _ & -> & _).
  open_log.
  rewrite (atty_has_in hdr w indep), (atty_has_out hdr w indep),
    (atty_has_err hdr w indep), (atty_nonzero hdr w indep), Hack.
  unfold any_tty. cbn [Z.eqb negb].
  split; intros Hin; rewrite Hin; cbn [orb app map fst snd].
  - split; [destruct (w_isatty w STDOUT_FILENO); reflexivity |].
    match goal with
    | |- relay_under_teardown ?l => rewrite <- (firstn_skipn 21 l)
    end.
    apply armed_then_relay.
    + reflexivity.
    + intros sig Hs. cbn in Hs.
      repeat (destruct Hs as [<- | Hs]; [reflexivity |]). contradiction.
    + destruct (w_isatty w STDOUT_FILENO); reflexivity.
  - destruct (w_isatty w STDOUT_FILENO), (w_isatty w STDERR_FILENO);
      split; reflexivity.
Qed.


End RelayStart.

(** C7 as the spec words it fails: with only stdout on a terminal the
    output pump and the resize watcher run while every terminating signal
    still has its default disposition. *)
Lemma relay_without_teardown :
  atty_flags_independent sample_headers /\
  granted sample_headers (sample_world false true false 0) /\
  existsb is_relay_task
    (run_log sample_headers (sample_world false true false 0)) = true /\
  ~ relay_under_teardown (run_log sample_headers (sample_world false true false 0)).
Proof.
  split; [repeat split; discriminate |].
  split; [reflexivity |].
  split; [reflexivity |].
  intros H.
  specialize (H (List.length (run_log sample_headers (sample_world false true false 0)))).
  specialize (H eq_refl SIGINT).
  assert (Hin : In SIGINT terminating_signals) by (cbn; tauto).
  specialize (H Hin). vm_compute in H. discriminate H.
Qed.


(** ** Concrete runs of the model *)

Example run_all_terminals :
  run sample_headers (sample_world true true true 0) =
  (Val 42,
   {| log :=
        [EvConnectDaemon 3; EvWriteInt 3 5; EvXWrite 3 [0; 0; 0; 0];
         EvWriteString 3 "/system/bin/sh"; EvWriteString 3 EmptyString;
         EvIsatty 0 true; EvIsatty 1 true; EvIsatty 2 true;
         EvPtsOpen 4 "/dev/pts/0"; EvWriteString 3 "/dev/pts/0";
         EvSendFd 3 (-1); EvSendFd 3 (-1); EvSendFd 3 (-1);
         EvReadInt 3 0;
         EvSigaction 14 (SIG_FN sighandler_ptr); EvSigaction 6 (SIG_FN sighandler_ptr);
         EvSigaction 1 (SIG_FN sighandler_ptr); EvSigaction 13 (SIG_FN sighandler_ptr);
         EvSigaction 3 (SIG_FN sighandler_ptr); EvSigaction 15 (SIG_FN sighandler_ptr);
         EvSigaction 2 (SIG_FN sighandler_ptr);
         EvPumpStdinAsync 4;
         EvWatchSigwinchAsync 1 4; EvPumpStdoutBlocking 4;
         EvReadInt 3 42; EvClose 3];
      stdin_raw := false; killed_by := None |}).
Proof. reflexivity. Qed.

Example run_stdout_only :
  run_log sample_headers (sample_world false true false 0) =
  [EvConnectDaemon 3; EvWriteInt 3 5; EvXWrite 3 [0; 0; 0; 0];
   EvWriteString 3 "/system/bin/sh"; EvWriteString 3 EmptyString;
   EvIsatty 0 false; EvIsatty 1 true; EvIsatty 2 false;
   EvPtsOpen 4 "/dev/pts/0"; EvWriteString 3 "/dev/pts/0";
   EvSendFd 3 0; EvSendFd 3 (-1); EvSendFd 3 2;
   EvReadInt 3 0;
   EvWatchSigwinchAsync 1 4; EvPumpStdoutBlocking 4;
   EvReadInt 3 42; EvClose 3].
Proof. reflexivity. Qed.

Example run_denied_no_terminal :
  run sample_headers (sample_world false false false 13) =
  (Val 1,
   {| log :=
        [EvConnectDaemon 3; EvWriteInt 3 5; EvXWrite 3 [0; 0; 0; 0];
         EvWriteString 3 "/system/bin/sh"; EvWriteString 3 EmptyString;
         EvIsatty 0 false; EvIsatty 1 false; EvIsatty 2 false;
         EvWriteString 3 EmptyString;
         EvSendFd 3 0; EvSendFd 3 1; EvSendFd 3 2;
         EvReadInt 3 13;
         EvPrint 2 ("Permission denied" ++ nl)%string];
      stdin_raw := false; killed_by := None |}).
Proof. reflexivity. Qed.

Example run_help :
  run_result sample_headers help_world = Exited 0 /\
  map is_print (run_log sample_headers help_world) = [true].
Proof. split; reflexivity. Qed.

Example atoi_examples :
  atoi "2000" = 2000 /\ atoi "  -12abc" = -12 /\ atoi "nobody" = 0 /\ atoi "+7" = 7.
Proof. repeat split; reflexivity. Qed.

Example concat_commands_example :
  concat_commands sprintf_in_place 5 ["su"; "-c"; "echo"; "a"; "b"] 3
  = Some "echo a b".
Proof. reflexivity. Qed.

(** A [sprintf] that clears its destination before it reads the
    overlapping source leaves only the last argument, after a space. *)
Example concat_commands_cleared_destination :
  concat_commands (fun _ arg => (" " ++ arg)%string) 5 ["su"; "-c"; "echo"; "a"; "b"] 3
  = Some " b".
Proof. reflexivity. Qed.

Example atoi_out_of_range :
  to_unsigned (atoi "99999999999999999999") = 4294967295 /\
  to_unsigned (atoi "4294967297") = 1 /\
  to_unsigned (atoi "-1") = 4294967295.
Proof. repeat split; reflexivity. Qed.

Example legacy_flag_examples :
  map legacy_flag ["su"; "-mm"; "-cn"; "-c"] = ["su"; "-M"; "-z"; "-c"].
Proof. reflexivity. Qed.

(** ** The theorems at concrete runs *)

Lemma sample_flags_independent : atty_flags_independent sample_headers.
Proof. repeat split; discriminate. Defined.



(** [su -h] opens no connection; plain [su] sends one request. *)
Lemma request_wire_order_witness :
  (exists p,
      parse_args sample_headers help_world init_proc = (Exited EXIT_SUCCESS, p) /\
      filter is_connect (run_log sample_headers help_world) = [] /\
      conn_writes (run_log sample_headers help_world) = []) /\
  (exists st,
      parse_args sample_headers (sample_world false false false 0) init_proc
      = (Val st, init_proc) /\
      exists slave a b c,
        conn_writes (run_log sample_headers (sample_world false false false 0)) =
          [EvWriteInt 3 5; EvXWrite 3 [0; 0; 0; 0];
           EvWriteString 3 "/system/bin/sh"; EvWriteString 3 EmptyString;
           EvWriteString 3 slave; EvSendFd 3 a; EvSendFd 3 b; EvSendFd 3 c]).
Proof.
  split.
  - eexists. split; [reflexivity |].
    eapply (proj1 (request_wire_order sample_headers help_world)). reflexivity.
  - eexists. split; [reflexivity |].
    destruct (proj2 (request_wire_order sample_headers (sample_world false false false 0))
                _ _ eq_refl) as (slave & a & b & c & _ & Hw & _).
    exists slave, a, b, c. exact Hw.
Defined.

(** All three streams on a terminal, the daemon answers 13. *)
Lemma denial_fast_fail_witness :
  let W := sample_world true true true 13 in
  ack_read (run_log sample_headers W) = Some 13 /\
  13 <> 0 /\
  run_result sample_headers W = Val 1 /\
  filter is_relay_task (run_log sample_headers W) = [] /\
  reads (run_log sample_headers W) = [13].
Proof.
  intros W.
  assert (Hack : ack_read (run_log sample_headers W) = Some 13) by reflexivity.
  assert (Hnz : 13 <> 0) by discriminate.
  destruct (denial_fast_fail sample_headers W 13 Hack Hnz) as (Hr & _ & Hn & _ & Hreads).
  auto.
Defined.

(** stdin and stdout on a terminal, the daemon lets the run in. *)
Lemma exit_code_after_relay_witness :
  let W := sample_world true true false 0 in
  atty_flags_independent sample_headers /\
  granted sample_headers W /\
  exists pre code,
    run_log sample_headers W = pre ++ [EvReadInt 3 code; EvClose 3] /\
    run_result sample_headers W = Val code /\
    reads pre = [0] /\
    exists before, pre = before ++ [EvPumpStdoutBlocking 4].
Proof.
  intros W.
  assert (Hg : granted sample_headers W) by reflexivity.
  destruct (exit_code_after_relay sample_headers W sample_flags_independent Hg)
    as (pre & code & Hl & Hr & Hreads & Hout & _).
  split; [exact sample_flags_independent |].
  split; [exact Hg |].
  exists pre, code.
  destruct (Hout eq_refl) as (before & Hb & _).
  repeat (split; [assumption |]).
  exists before. exact Hb.
Defined.



(** SIGINT, then SIGTERM, at a process with the handler armed. *)
Lemma teardown_one_shot_witness :
  killed_by armed_proc = None /\
  teardown_armed (log armed_proc) /\
  In SIGINT terminating_signals /\
  In SIGTERM terminating_signals /\
  stdin_raw (deliver SIGINT armed_proc) = false /\
  has_closed (deliver SIGINT armed_proc) STDIN_FILENO = true /\
  disposition (deliver SIGINT armed_proc) SIGTERM = SIG_DFL /\
  killed_by (deliver SIGINT armed_proc) = None /\
  killed_by (deliver SIGTERM (deliver SIGINT armed_proc)) = Some SIGTERM /\
  handler_runs (deliver SIGTERM (deliver SIGINT armed_proc)) = 1%nat.
Proof.
  assert (Halive : killed_by armed_proc = None) by reflexivity.
  assert (Harmed : teardown_armed (log armed_proc))
    by apply (setup_sighandlers_arms init_proc).
  assert (H1 : In SIGINT terminating_signals) by (cbn; tauto).
  assert (H2 : In SIGTERM terminating_signals) by (cbn; tauto).
  destruct (teardown_one_shot armed_proc SIGINT SIGTERM Halive Harmed H1 H2)
    as (_ & Hraw & Hc0 & _ & _ & Hdfl & Hruns & Hk1 & Hk2 & _ & Hruns2).
  repeat (split; [assumption |]).
  split; [apply Hdfl, H2 |].
  split; [exact Hk1 |].
  split; [exact Hk2 |].
  rewrite Hruns2, Hruns. reflexivity.
Defined.

(** All three streams on a terminal; and only stdout on a terminal. *)
Lemma teardown_armed_with_input_pump_witness :
  let W := sample_world true true true 0 in
  let O := sample_world false true false 0 in
  atty_flags_independent sample_headers /\
  granted sample_headers W /\ w_isatty W STDIN_FILENO = true /\
  granted sample_headers O /\ w_isatty O STDIN_FILENO = false /\
  relay_under_teardown (run_log sample_headers W) /\
  filter is_sigaction (run_log sample_headers O) = [] /\
  existsb is_pump_stdout (run_log sample_headers O) = true.
Proof.
  intros W O.
  assert (HgW : granted sample_headers W) by reflexivity.
  assert (HgO : granted sample_headers O) by reflexivity.
  destruct (teardown_armed_with_input_pump sample_headers W sample_flags_independent HgW)
    as [Hin _].
  destruct (teardown_armed_with_input_pump sample_headers O sample_flags_independent HgO)
    as [_ Hnot].
  destruct (Hin eq_refl) as [_ Hrel], (Hnot eq_refl) as [Hsig Hout].
  repeat (split; [first [exact sample_flags_independent | assumption | reflexivity] |]).
  exact Hout.
Defined.





(** * Further properties of the code *)

(** ** [concat_commands] *)

Lemma append_assoc (a b c : string) : ((a ++ b) ++ c = a ++ (b ++ c))%string.
Proof. induction a as [| x a IH]; cbn; [reflexivity | rewrite IH; reflexivity]. Qed.

Lemma concat_cons_join (x a : string) (l : list string) :
  String.concat " " ((x ++ " " ++ a)%string :: l)
  = (x ++ " " ++ String.concat " " (a :: l))%string.
Proof.
  destruct l as [| b l]; [reflexivity |].
  cbn [String.concat]. rewrite !append_assoc. reflexivity.
Qed.

Lemma length_append (a b : string) :
  String.length (a ++ b) = (String.length a + String.length b)%nat.
Proof. induction a as [| x a IH]; cbn; [reflexivity | rewrite IH; reflexivity]. Qed.

Lemma length_concat_head (a : string) (l : list string) :
  (String.length a <= String.length (String.concat " " (a :: l)))%nat.
Proof.
  destruct l as [| b l]; cbn [String.concat]; [lia |].
  rewrite length_append. lia.
Qed.

Lemma fits_command_shorter (s s' : string) :
  (String.length s <= String.length s')%nat ->
  fits_command s = false -> fits_command s' = false.
Proof.
  unfold fits_command. intros Hle Hs.
  apply Z.ltb_ge in Hs. apply Z.ltb_ge. lia.
Qed.

Lemma join_past_the_end (sprintf : string -> string -> string) (l : list string) :
  fold_left (join_step sprintf) l None = None.
Proof. induction l as [| a l IH]; [reflexivity | exact IH]. Qed.

Lemma join_from_nonempty (l : list string) :
  forall c r,
    fits_command (String c r) = true ->
    fold_left (join_step sprintf_in_place) l (Some (String c r)) =
      (if fits_command (String.concat " " (String c r :: l))
       then Some (String.concat " " (String c r :: l)) else None).
Proof.
  induction l as [| a l IH]; intros c r Hfit.
  - cbn [fold_left String.concat]. rewrite Hfit. reflexivity.
  - cbn [fold_left join_step].
    change (sprintf_in_place (String c r) a) with (String c (r ++ " " ++ a)%string).
    destruct (fits_command (String c (r ++ " " ++ a)%string)) eqn:Hstep.
    + rewrite (IH _ _ Hstep).
      change (String c (r ++ " " ++ a)%string) with (String c r ++ " " ++ a)%string.
      rewrite concat_cons_join. reflexivity.
    + rewrite join_past_the_end.
      rewrite (fits_command_shorter (String c (r ++ " " ++ a)%string)
                 (String.concat " " (String c r :: a :: l))); [reflexivity | | exact Hstep].
      change (String c (r ++ " " ++ a)%string) with (String c r ++ " " ++ a)%string.
      change (String.concat " " (String c r :: a :: l))
        with (String c r ++ " " ++ String.concat " " (a :: l))%string.
      rewrite !length_append.
      pose proof (length_concat_head a l). lia.
Qed.

Lemma join_from_empty (l : list string) :
  fold_left (join_step sprintf_in_place) l (Some EmptyString) =
    (if fits_command (String.concat " " (drop_leading_empty l))
     then Some (String.concat " " (drop_leading_empty l)) else None).
Proof.
  induction l as [| a l IH]; [reflexivity |].
  destruct a as [| c r]; cbn [fold_left join_step drop_leading_empty].
  - exact IH.
  - destruct (fits_command (String c r)) eqn:Hfit.
    + apply join_from_nonempty, Hfit.
    + rewrite join_past_the_end.
      rewrite (fits_command_shorter (String c r)
                 (String.concat " " (String c r :: l)));
        [reflexivity | apply length_concat_head | exact Hfit].
Qed.

(** One argument after the empty ones: [sprintf] is never called. *)
Lemma join_single (sprintf : string -> string -> string) (x : string) (l : list string) :
  drop_leading_empty l = [x] ->
  fold_left (join_step sprintf) l (Some EmptyString) =
    (if fits_command x then Some x else None).
Proof.
  induction l as [| a l IH]; [discriminate |].
  destruct a as [| c r]; cbn [fold_left join_step drop_leading_empty].
  - exact IH.
  - intros H. injection H as -> ->. reflexivity.
Qed.

(** X1. With a C library whose [sprintf] copies the overlapping source
    where it lies, [concat_commands] skips the empty arguments in front and
    joins all that follow, empty or not, with one space between neighbours,
    provided the result and its terminator fit [command[ARG_MAX]]; a longer
    one is written past the end of the array.  When one argument is left
    after the empty ones [sprintf] is not called, and the result is that
    argument with every C library, under the same bound. *)
Theorem concat_commands_joins (argc : nat) (argv : list string) (optind : nat) :
  let args := drop_leading_empty (command_args argc argv optind) in
  concat_commands sprintf_in_place argc argv optind =
    (if fits_command (String.concat " " args)
     then Some (String.concat " " args) else None) /\
  (forall sprintf x,
      args = [x] ->
      concat_commands sprintf argc argv optind =
        (if fits_command x then Some x else None)).
Proof.
  unfold concat_commands. split.
  - apply join_from_empty.
  - intros sprintf x Hx. apply join_single, Hx.
Qed.

(** ** The rewriting of legacy flags *)

Lemma legacy_flag_cases (arg : string) :
  (arg = "-cn" /\ legacy_flag arg = "-z") \/
  (arg = "-mm" /\ legacy_flag arg = "-M") \/
  (arg <> "-cn" /\ arg <> "-mm" /\ legacy_flag arg = arg).
Proof.
  unfold legacy_flag.
  destruct (String.eqb_spec arg "-cn") as [-> | Hcn]; [left; auto |].
  destruct (String.eqb_spec arg "-mm") as [-> | Hmm]; [right; left; auto |].
  right; right; auto.
Qed.

(** X2. Rewriting the legacy flags in place keeps [argc], never makes an
    argument longer than the buffer it is copied into, leaves neither [-cn]
    nor [-mm] behind, and changes nothing when done again. *)
Theorem legacy_flags_in_place (args : list string) :
  List.length (map legacy_flag args) = List.length args /\
  Forall2 (fun old new => (String.length new <= String.length old)%nat)
    args (map legacy_flag args) /\
  existsb (fun a => String.eqb a "-cn" || String.eqb a "-mm")%bool
    (map legacy_flag args) = false /\
  map legacy_flag (map legacy_flag args) = map legacy_flag args.
Proof.
  split; [apply length_map |].
  induction args as [| a args (IH2 & IHe & IHi)]; cbn [map existsb].
  - repeat split; constructor.
  - destruct (legacy_flag_cases a) as [[-> E] | [[-> E] | (Hcn & Hmm & E)]];
      rewrite E, IHe, IHi.
    + repeat split; [constructor; [cbn; lia | exact IH2]].
    + repeat split; [constructor; [cbn; lia | exact IH2]].
    + apply String.eqb_neq in Hcn, Hmm. rewrite Hcn, Hmm, E.
      repeat split; [constructor; [lia | exact IH2]].
Qed.

(** ** Signals outside [quit_signals] *)

Lemma disp_after_resets (d : Z -> sa_handler) (act : sa_handler) (sig : Z) :
  ~ In sig terminating_signals ->
  fold_left disp_step
    (map (fun s => EvSigaction s act)
       [SIGALRM; SIGABRT; SIGHUP; SIGPIPE; SIGQUIT; SIGTERM; SIGINT]) d sig
  = d sig.
Proof.
  intros Hout. cbn [map fold_left disp_step].
  repeat match goal with
         | |- context [sig =? ?k] =>
             destruct (Z.eqb_spec sig k) as [-> | _];
             [exfalso; apply Hout; cbn; tauto |]
         end.
  reflexivity.
Qed.

(** X3. Neither arming nor teardown touches a signal outside the seven of
    [quit_signals]: whatever disposition such a signal has (the SIGWINCH
    watcher's, say) is still there afterwards. *)
Theorem other_signals_untouched (p : proc) (f : handler_fn) (s sig : Z) :
  ~ In sig terminating_signals ->
  disposition (exec (setup_sighandlers f) p) sig = disposition p sig /\
  disposition (exec (sighandler s) p) sig = disposition p sig.
Proof.
  intros Hout. unfold disposition.
  rewrite setup_sighandlers_log, sighandler_log, !disp_at_app.
  split.
  - apply disp_after_resets, Hout.
  - change [EvSighandler s; EvRestoreStdin; EvClose STDIN_FILENO;
            EvClose STDOUT_FILENO; EvClose STDERR_FILENO;
            EvSigaction SIGALRM SIG_DFL; EvSigaction SIGABRT SIG_DFL;
            EvSigaction SIGHUP SIG_DFL; EvSigaction SIGPIPE SIG_DFL;
            EvSigaction SIGQUIT SIG_DFL; EvSigaction SIGTERM SIG_DFL;
            EvSigaction SIGINT SIG_DFL]
      with ([EvSighandler s; EvRestoreStdin; EvClose STDIN_FILENO;
             EvClose STDOUT_FILENO; EvClose STDERR_FILENO]
            ++ map (fun k => EvSigaction k SIG_DFL)
                 [SIGALRM; SIGABRT; SIGHUP; SIGPIPE; SIGQUIT; SIGTERM; SIGINT]).
    rewrite fold_left_app. cbn [fold_left disp_step].
    apply disp_after_resets, Hout.
Qed.

(** ** The option loop *)

(** Case analysis on an option character against one literal. *)
Ltac char_case lit :=
  match goal with
  | |- context [Ascii.eqb ?x lit] =>
      is_var x;
      let E := fresh "E" in
      destruct (Ascii.eqb x lit) eqn:E;
      [apply Ascii.eqb_eq in E; subst x |]
  | _ => idtac
  end.

Section Options.

Variable hdr : headers.
Variable w : world.
Variable argc : nat.

Lemma has_option_here (a : getopt_ret) (c ch : ascii) :
  go_c a = Some c -> has_option ch a = Ascii.eqb c ch.
Proof. unfold has_option. intros ->. reflexivity. Qed.

(** What the loop makes of the request, answer by answer. *)
Lemma getopt_loop_request (answers : list getopt_ret) :
  forall st p st' p',
    getopt_loop hdr w argc answers st p = (Val st', p') ->
    let seen := answered answers in
    let r := su_req st in
    let r' := su_req st' in
    uid r' = uid r /\
    login r' = (if existsb (has_option "l") seen then 1 else login r) /\
    keepenv r' =
      (if existsb (fun a => has_option "m" a || has_option "p" a)%bool seen
       then 1 else keepenv r) /\
    mount_master r' = (if existsb (has_option "M") seen then 1 else mount_master r) /\
    shell r' = match last_option "s" seen with
               | Some a => go_optarg a
               | None => shell r
               end /\
    match last_option "c" seen with
    | Some a =>
        concat_commands (w_sprintf w) argc (go_argv a) (go_optind a) = Some (command r')
    | None => command r' = command r
    end.
Proof.
  induction answers as [| a rest IH]; intros st p st' p' Hrun.
  - cbn in Hrun. injection Hrun as <- _. cbn. repeat split; reflexivity.
  - cbn [getopt_loop] in Hrun. cbn [answered].
    destruct (go_c a) as [c |] eqn:Hc;
      [| injection Hrun as <- _; cbn; repeat split; reflexivity].
    cbn [existsb last_option]. rewrite !(has_option_here a c _ Hc).
    revert Hrun.
    char_case "c"%char; char_case "h"%char; char_case "l"%char; char_case "m"%char;
      char_case "p"%char; char_case "s"%char; char_case "V"%char; char_case "v"%char;
      char_case "z"%char; char_case "M"%char;
      cbn [Ascii.eqb Bool.eqb andb orb optind argv];
      try destruct (concat_commands (w_sprintf w) argc (go_argv a) (go_optind a))
        as [cmd |] eqn:Hcat;
      intros Hrun; try discriminate Hrun;
      destruct (IH _ _ _ _ Hrun) as (Hu & Hl & Hk & Hm & Hs & Hcmd);
      cbn [su_req with_req set_login set_keepenv set_mount_master set_shell
           set_command uid login keepenv mount_master shell command
           optind argv] in Hu, Hl, Hk, Hm, Hs, Hcmd;
      rewrite Hu, Hl, Hk, Hm, Hs;
      repeat split;
      repeat match goal with
             | |- context [existsb ?f ?l] => destruct (existsb f l)
             | |- context [last_option ?c ?l] => destruct (last_option c l)
             end;
      try reflexivity; try exact Hcmd; try (rewrite Hcmd; reflexivity);
      try (rewrite Hcmd; exact Hcat).
Qed.

End Options.

Section OptionRuns.

Variable hdr : headers.
Variable w : world.

Let argc : nat := List.length (w_argv w).

(** The two ways the loop leaves the process. *)
Lemma getopt_loop_exit_cases (answers : list getopt_ret) :
  forall st p s p',
    getopt_loop hdr w argc answers st p = (Exited s, p') ->
    (s = EXIT_SUCCESS /\
     exists text, p' = emit (EvPrint STDOUT_FILENO text) p) \/
    (s = 2 /\
     p' = emit (EvPrint STDERR_FILENO (usage_text hdr))
            (emit (EvPrint STDERR_FILENO nl) p)).
Proof.
  induction answers as [| a rest IH]; intros st p s p' Hrun.
  - discriminate Hrun.
  - cbn [getopt_loop] in Hrun.
    destruct (go_c a) as [c |]; [| discriminate Hrun].
    revert Hrun.
    char_case "c"%char; char_case "h"%char; char_case "l"%char;
      char_case "m"%char; char_case "p"%char; char_case "s"%char;
      char_case "V"%char; char_case "v"%char; char_case "z"%char;
      char_case "M"%char;
      cbn [Ascii.eqb Bool.eqb andb orb optind argv];
      try destruct (concat_commands (w_sprintf w) argc (go_argv a) (go_optind a));
      intros Hrun; try discriminate Hrun;
      try (apply (IH _ _ _ _ Hrun));
      injection Hrun as <- <-;
      first [ left; split; [reflexivity | eexists; reflexivity]
            | right; split; reflexivity ].
Qed.

(** Options that go on with the loop can be stepped over, unless the
    command of a [-c] among them overruns its array. *)
Lemma getopt_loop_skip (pre : list getopt_ret) :
  forallb answer_continues pre = true ->
  forall st,
    if forallb (command_fits w) pre
    then exists st',
        forall l p,
          getopt_loop hdr w argc (pre ++ l) st p = getopt_loop hdr w argc l st' p
    else forall l p, getopt_loop hdr w argc (pre ++ l) st p = (Undefined, p).
Proof.
  induction pre as [| a pre IH]; intros Hpre st.
  - exists st. reflexivity.
  - cbn [forallb] in Hpre |- *. apply andb_true_iff in Hpre as [Ha Hpre].
    unfold answer_continues in Ha. unfold command_fits at 1, has_option.
    fold argc.
    destruct (go_c a) as [c |] eqn:Hc; [| discriminate Ha].
    cbn [app getopt_loop]. rewrite Hc.
    unfold option_continues in Ha. revert Ha.
    char_case "c"%char; char_case "h"%char; char_case "l"%char;
      char_case "m"%char; char_case "p"%char; char_case "s"%char;
      char_case "V"%char; char_case "v"%char; char_case "z"%char;
      char_case "M"%char;
      cbn [Ascii.eqb Bool.eqb andb orb negb optind argv];
      try destruct (concat_commands (w_sprintf w) argc (go_argv a) (go_optind a));
      intros Ha; try discriminate Ha;
      cbn [andb orb negb];
      first [ apply (IH Hpre) | intros l p; reflexivity ].
Qed.

Lemma run_exits_as_parse (s : Z) (p : proc) :
  getopt_loop hdr w argc (w_getopt w)
    {| su_req := su_req_init hdr; optind := 1;
       argv := map legacy_flag (w_argv w) |} init_proc = (Exited s, p) ->
  run hdr w = (Exited s, p).
Proof.
  intros E. unfold run, su_client_main, parse_args, bind. fold argc.
  rewrite E. reflexivity.
Qed.

Lemma run_undefined_as_parse :
  getopt_loop hdr w argc (w_getopt w)
    {| su_req := su_req_init hdr; optind := 1;
       argv := map legacy_flag (w_argv w) |} init_proc = (Undefined, init_proc) ->
  run hdr w = (Undefined, init_proc).
Proof.
  intros E. unfold run, su_client_main, parse_args, bind. fold argc.
  rewrite E. reflexivity.
Qed.

(** X4. When [su_client_main] exits instead of returning, the status is
    [EXIT_SUCCESS] after exactly one message on stdout, or 2 after a newline
    and the usage text on stderr; nothing else has happened. *)
Theorem exit_status_cases (s : Z) :
  run_result hdr w = Exited s ->
  (s = EXIT_SUCCESS /\
   exists text, run_log hdr w = [EvPrint STDOUT_FILENO text]) \/
  (s = 2 /\
   run_log hdr w =
     [EvPrint STDERR_FILENO nl; EvPrint STDERR_FILENO (usage_text hdr)]).
Proof.
  unfold run_result, run_log.
  destruct (run_shapes hdr w)
    as [(st & _ & E) | [(s' & prints & Hp & E & _) | [_ E]]];
    rewrite E; cbn [fst snd log]; intros H; [discriminate H | | discriminate H].
  injection H as ->.
  unfold parse_args, bind in Hp. fold argc in Hp.
  destruct (getopt_loop hdr w argc (w_getopt w) _ init_proc) as [[st0 | s0 |] p0] eqn:El;
    [discriminate Hp | | discriminate Hp].
  injection Hp as -> ->.
  destruct (getopt_loop_exit_cases _ _ _ _ _ El) as [[-> [text Hlog]] | [-> Hlog]].
  - left. split; [reflexivity |]. exists text.
    apply (f_equal log) in Hlog. exact Hlog.
  - right. split; [reflexivity |].
    apply (f_equal log) in Hlog. exact Hlog.
Qed.

(** X5. An option character that has no [case] of its own (the [?] of an
    unknown option, or [u], which the option string accepts) ends the run
    with a newline and the usage text on stderr and status 2, whatever
    options were accepted before it and whatever follows; unless the command
    of a [-c] before it has overrun its array. *)
Theorem unknown_option_usage (pre rest : list getopt_ret) (a : getopt_ret) (ch : ascii) :
  w_getopt w = pre ++ a :: rest ->
  forallb answer_continues pre = true ->
  go_c a = Some ch ->
  option_continues ch = false ->
  option_reports ch = false ->
  run hdr w =
    if forallb (command_fits w) pre
    then (Exited 2,
          {| log := [EvPrint STDERR_FILENO nl; EvPrint STDERR_FILENO (usage_text hdr)];
             stdin_raw := false; killed_by := None |})
    else (Undefined, init_proc).
Proof.
  intros Hw Hpre Hc Hcont Hrep.
  pose proof (getopt_loop_skip pre Hpre
                {| su_req := su_req_init hdr; optind := 1;
                   argv := map legacy_flag (w_argv w) |}) as Hskip.
  destruct (forallb (command_fits w) pre);
    [| apply run_undefined_as_parse; rewrite Hw; apply Hskip].
  destruct Hskip as [st' Hskip].
  apply run_exits_as_parse. rewrite Hw, Hskip.
  cbn [getopt_loop]. rewrite Hc.
  unfold option_continues in Hcont. unfold option_reports in Hrep.
  revert Hcont Hrep.
  char_case "c"%char; char_case "h"%char; char_case "l"%char;
    char_case "m"%char; char_case "p"%char; char_case "s"%char;
    char_case "V"%char; char_case "v"%char; char_case "z"%char;
    char_case "M"%char;
    cbn [Ascii.eqb Bool.eqb andb orb]; intros Hcont Hrep;
    try discriminate Hcont; try discriminate Hrep.
  reflexivity.
Qed.

(** X6. [-h], [-V] and [-v] print their one message on stdout and exit with
    [EXIT_SUCCESS] at once: options after them are never looked at, and the
    daemon is not contacted; unless the command of a [-c] before them has
    overrun its array. *)
Theorem help_and_version (pre rest : list getopt_ret) (a : getopt_ret) (ch : ascii) :
  w_getopt w = pre ++ a :: rest ->
  forallb answer_continues pre = true ->
  go_c a = Some ch ->
  option_reports ch = true ->
  run hdr w =
    if forallb (command_fits w) pre
    then (Exited EXIT_SUCCESS,
          {| log := [EvPrint STDOUT_FILENO (report_text hdr ch)];
             stdin_raw := false; killed_by := None |})
    else (Undefined, init_proc).
Proof.
  intros Hw Hpre Hc Hrep.
  pose proof (getopt_loop_skip pre Hpre
                {| su_req := su_req_init hdr; optind := 1;
                   argv := map legacy_flag (w_argv w) |}) as Hskip.
  destruct (forallb (command_fits w) pre);
    [| apply run_undefined_as_parse; rewrite Hw; apply Hskip].
  destruct Hskip as [st' Hskip].
  apply run_exits_as_parse. rewrite Hw, Hskip.
  cbn [getopt_loop]. rewrite Hc.
  unfold option_reports in Hrep. unfold report_text. revert Hrep.
  char_case "c"%char; char_case "h"%char; char_case "l"%char;
    char_case "m"%char; char_case "p"%char; char_case "s"%char;
    char_case "V"%char; char_case "v"%char; char_case "z"%char;
    char_case "M"%char;
    cbn [Ascii.eqb Bool.eqb andb orb]; intros Hrep;
    try discriminate Hrep; reflexivity.
Qed.

End OptionRuns.

(** ** The request that reaches the wire *)

Section RequestSent.

Variable hdr : headers.
Variable w : world.

Let argc : nat := List.length (w_argv w).

Lemma scalars_sent_handshake (req : su_request) :
  scalars_sent (handshake_log hdr w req ++ epilogue_log hdr w)
  = Some (scalar_words req).
Proof. open_log. split_ifs; reflexivity. Qed.

Lemma sent_strings_handshake (req : su_request) :
  sent_strings (handshake_log hdr w req ++ epilogue_log hdr w)
  = [shell req; command req; snd (pty_of hdr w)].
Proof. open_log. split_ifs; reflexivity. Qed.

(** A run that connects has left the option loop in some state, and sends
    the request that state leads to. *)
Lemma connected_request :
  connected hdr w ->
  exists st0,
    after_getopt hdr w = Val st0 /\
    getopt_loop hdr w argc (w_getopt w)
      {| su_req := su_req_init hdr; optind := 1;
         argv := map legacy_flag (w_argv w) |} init_proc = (Val st0, init_proc) /\
    run_log hdr w =
      handshake_log hdr w (su_req (target_uid w argc (login_dash argc st0)))
      ++ epilogue_log hdr w.
Proof.
  intros Hc.
  destruct (connected_run hdr w Hc) as (st & Hp & Hlog & _).
  unfold parse_args, bind in Hp. fold argc in Hp.
  destruct (getopt_loop_quiet hdr w argc (w_getopt w)
              {| su_req := su_req_init hdr; optind := 1;
                 argv := map legacy_flag (w_argv w) |} init_proc)
    as [[st0 E] | [(s & prints & E & _) | E]]; rewrite E in Hp;
    [| discriminate Hp | discriminate Hp].
  injection Hp as <-.
  exists st0. unfold after_getopt, outcome. fold argc. rewrite E. auto.
Qed.

Lemma login_dash_request (st : parse_state) :
  let r := su_req st in
  let r' := su_req (login_dash argc st) in
  uid r' = uid r /\ keepenv r' = keepenv r /\ mount_master r' = mount_master r /\
  shell r' = shell r /\ command r' = command r /\
  login r' =
    (if (Nat.ltb (optind st) argc
         && String.eqb (nth (optind st) (argv st) EmptyString) "-")%bool
     then 1 else login r).
Proof. unfold login_dash. destruct (_ && _)%bool; cbn; auto 10. Qed.

Lemma target_uid_request (st : parse_state) :
  let r := su_req st in
  let r' := su_req (target_uid w argc st) in
  login r' = login r /\ keepenv r' = keepenv r /\ mount_master r' = mount_master r /\
  shell r' = shell r /\ command r' = command r /\
  (Nat.ltb (optind st) argc = false -> uid r' = uid r).
Proof.
  unfold target_uid. destruct (Nat.ltb _ _); cbn; repeat split; auto; discriminate.
Qed.

(** X7. The three flags on the wire depend only on which options were
    answered, not on their order or number: login is 1 exactly when [-l]
    was given or a bare [-] follows the options, keepenv exactly when [-m]
    or [-p] was given, mount_master exactly when [-M] was given. *)
Theorem flags_from_options :
  connected hdr w ->
  let seen := answered (w_getopt w) in
  exists u,
    scalars_sent (run_log hdr w) =
      Some [u;
            if (existsb (has_option "l") seen || dash_given hdr w)%bool then 1 else 0;
            if existsb (fun a => has_option "m" a || has_option "p" a)%bool seen
            then 1 else 0;
            if existsb (has_option "M") seen then 1 else 0].
Proof.
  intros Hc seen.
  destruct (connected_request Hc) as (st0 & Hafter & Hloop & ->).
  rewrite scalars_sent_handshake. unfold scalar_words.
  destruct (getopt_loop_request hdr w argc _ _ _ _ _ Hloop)
    as (_ & Hl & Hk & Hm & _ & _).
  destruct (login_dash_request st0) as (_ & Hk1 & Hm1 & _ & _ & Hl1).
  destruct (target_uid_request (login_dash argc st0)) as (Hl2 & Hk2 & Hm2 & _).
  cbn zeta in *.
  rewrite Hl2, Hk2, Hm2, Hl1, Hk1, Hm1, Hl, Hk, Hm.
  unfold dash_given. rewrite Hafter. fold argc. fold seen.
  eexists. cbn [su_req su_req_init login keepenv mount_master].
  destruct (existsb (has_option "l") seen), (_ && _)%bool; reflexivity.
Qed.

(** X8. The three strings on the wire: the shell is the argument of the
    last [-s], or [DEFAULT_SHELL]; the command is what [concat_commands]
    made at the last [-c], or empty; the third is the slave name. *)
Theorem request_strings :
  connected hdr w ->
  let seen := answered (w_getopt w) in
  exists cmd,
    sent_strings (run_log hdr w) =
      [match last_option "s" seen with
       | Some a => go_optarg a
       | None => DEFAULT_SHELL hdr
       end;
       cmd;
       snd (pty_of hdr w)] /\
    match last_option "c" seen with
    | Some a =>
        concat_commands (w_sprintf w) argc (go_argv a) (go_optind a) = Some cmd
    | None => cmd = EmptyString
    end.
Proof.
  intros Hc seen.
  destruct (connected_request Hc) as (st0 & _ & Hloop & ->).
  rewrite sent_strings_handshake.
  destruct (getopt_loop_request hdr w argc _ _ _ _ _ Hloop)
    as (_ & _ & _ & _ & Hs & Hcmd).
  destruct (login_dash_request st0) as (_ & _ & _ & Hs1 & Hc1 & _).
  destruct (target_uid_request (login_dash argc st0)) as (_ & _ & _ & Hs2 & Hc2 & _).
  cbn zeta in *.
  exists (command (su_req st0)).
  rewrite Hs2, Hc2, Hs1, Hc1, Hs. split; [reflexivity |].
  fold seen in Hcmd |- *. destruct (last_option "c" seen); exact Hcmd.
Qed.

Lemma user_argument_after (st0 : parse_state) :
  after_getopt hdr w = Val st0 ->
  user_argument hdr w =
    (let st := login_dash argc st0 in
     if Nat.ltb (optind st) argc
     then Some (nth (optind st) (argv st) EmptyString)
     else None).
Proof.
  unfold after_getopt, user_argument. fold argc. intros ->. reflexivity.
Qed.

Lemma after_getopt_loop (st0 : parse_state) :
  after_getopt hdr w = Val st0 ->
  getopt_loop hdr w argc (w_getopt w)
    {| su_req := su_req_init hdr; optind := 1;
       argv := map legacy_flag (w_argv w) |} init_proc = (Val st0, init_proc).
Proof.
  unfold after_getopt, outcome. fold argc.
  destruct (getopt_loop_quiet hdr w argc (w_getopt w)
              {| su_req := su_req_init hdr; optind := 1;
                 argv := map legacy_flag (w_argv w) |} init_proc)
    as [[st E] | [(s & prints & E & _) | E]]; rewrite E; cbn [fst]; intros H.
  - injection H as ->. reflexivity.
  - discriminate H.
  - discriminate H.
Qed.

Lemma after_getopt_run (st0 : parse_state) :
  after_getopt hdr w = Val st0 ->
  connected hdr w /\
  run_log hdr w =
    handshake_log hdr w (su_req (target_uid w argc (login_dash argc st0)))
    ++ epilogue_log hdr w.
Proof.
  intros Hafter. pose proof (after_getopt_loop _ Hafter) as Hloop.
  assert (Hrun : run_log hdr w =
            handshake_log hdr w (su_req (target_uid w argc (login_dash argc st0)))
            ++ epilogue_log hdr w).
  { unfold run_log, run, su_client_main, parse_args, bind. fold argc.
    rewrite Hloop. cbn [ret]. rewrite su_connect_run. reflexivity. }
  split; [| exact Hrun].
  unfold connected. rewrite Hrun. reflexivity.
Qed.

(** The uid on the wire, from the argument in the user position. *)
Lemma uid_sent_run (st0 : parse_state) :
  after_getopt hdr w = Val st0 ->
  uid_sent (run_log hdr w) =
    Some (to_unsigned
            match user_argument hdr w with
            | Some arg => match w_getpwnam w arg with
                          | Some pw_uid => pw_uid
                          | None => atoi arg
                          end
            | None => UID_ROOT hdr
            end).
Proof.
  intros Hafter.
  destruct (after_getopt_run _ Hafter) as [_ ->].
  rewrite uid_sent_handshake, (user_argument_after _ Hafter). cbn zeta.
  unfold target_uid.
  destruct (Nat.ltb (optind (login_dash argc st0)) argc) eqn:Hlt.
  - reflexivity.
  - destruct (login_dash_request st0) as (Hu1 & _).
    destruct (getopt_loop_request hdr w argc _ _ _ _ _ (after_getopt_loop _ Hafter))
      as (Hu0 & _).
    cbn zeta in *. rewrite Hu1, Hu0. reflexivity.
Qed.

(** X9. Without a user-or-uid argument the request goes out for
    [UID_ROOT], whatever options were given. *)
Theorem default_target_is_root :
  connected hdr w ->
  user_argument hdr w = None ->
  uid_sent (run_log hdr w) = Some (to_unsigned (UID_ROOT hdr)).
Proof.
  intros Hc Hnone.
  destruct (connected_request Hc) as (st0 & Hafter & _).
  rewrite (uid_sent_run _ Hafter), Hnone. reflexivity.
Qed.

(** X10. A bare [-] after the options is used up as the login flag and is
    never taken for the user name: the uid on the wire comes from the
    argument that follows the dash, and is [UID_ROOT] when nothing does. *)
Theorem bare_dash_consumed (st0 : parse_state) :
  after_getopt hdr w = Val st0 ->
  dash_given hdr w = true ->
  uid_sent (run_log hdr w) =
    Some (to_unsigned
            (if Nat.ltb (S (optind st0)) argc
             then let arg := nth (S (optind st0)) (argv st0) EmptyString in
                  match w_getpwnam w arg with
                  | Some pw_uid => pw_uid
                  | None => atoi arg
                  end
             else UID_ROOT hdr)).
Proof.
  intros Hafter Hdash.
  rewrite (uid_sent_run _ Hafter), (user_argument_after _ Hafter).
  unfold dash_given in Hdash. rewrite Hafter in Hdash. fold argc in Hdash.
  unfold login_dash. rewrite Hdash. cbn [optind argv].
  destruct (Nat.ltb (S (optind st0)) argc); reflexivity.
Qed.

(** X11. An argument that is not a user name and starts with decimal
    digits is sent as the number those digits spell, as long as it is below
    2^31; whatever follows the digits is ignored. *)
Theorem numeric_uid (ds rest : string) :
  user_argument hdr w = Some (ds ++ rest)%string ->
  w_getpwnam w (ds ++ rest)%string = None ->
  starts_with_digit ds = true ->
  all_digits ds = true ->
  starts_with_digit rest = false ->
  digits ds 0 < 2 ^ 31 ->
  uid_sent (run_log hdr w) = Some (digits ds 0).
Proof.
  intros Harg Hpw Hstart Hds Hrest Hsmall.
  assert (Hafter : exists st0, after_getopt hdr w = Val st0).
  { unfold user_argument in Harg. unfold after_getopt. fold argc in Harg |- *.
    destruct (outcome _ init_proc) as [st0 | s |];
      [eauto | discriminate Harg | discriminate Harg]. }
  destruct Hafter as [st0 Hafter].
  rewrite (uid_sent_run _ Hafter), Harg, Hpw.
  rewrite (atoi_leading_digits _ _ Hstart Hds Hrest Hsmall). reflexivity.
Qed.


End RequestSent.

(** ** Descriptors *)

Section Descriptors.

Variable hdr : headers.
Variable w : world.

Lemma prints_have_no_socket (l : list event) :
  forallb is_print l = true ->
  Forall (fun e => socket_of e = None /\ ptmx_of e = None) l.
Proof.
  induction l as [| e l IH]; cbn; [constructor |].
  intros H. apply andb_true_iff in H as [He Hl].
  constructor; [| apply IH, Hl].
  destruct e; try discriminate He. split; reflexivity.
Qed.

Lemma prints_no_relay (l : list event) :
  forallb is_print l = true -> existsb is_relay_task l = false.
Proof.
  induction l as [| e l IH]; cbn; [reflexivity |].
  intros H. apply andb_true_iff in H as [He Hl].
  rewrite (IH Hl). destruct e; try discriminate He. reflexivity.
Qed.

(** X12. Every integer, string and descriptor [su_client_main] writes or
    reads goes over the one socket [connect_daemon] returned. *)
Theorem one_socket :
  Forall (fun e => forall fd, socket_of e = Some fd -> fd = w_connect_daemon w)
    (run_log hdr w).
Proof.
  unfold run_log.
  destruct (run_shapes hdr w)
    as [(st & _ & E) | [(s & prints & _ & E & Hp) | [_ E]]];
    rewrite E; cbn [fst snd log].
  - open_log. split_ifs; cbn [app map];
      repeat (apply Forall_cons;
              [intros fd H; cbn in H; congruence |]);
      apply Forall_nil.
  - eapply Forall_impl; [| apply prints_have_no_socket, Hp].
    intros e [He _] fd H. congruence.
  - apply Forall_nil.
Qed.

(** With no flag set in [atty] no single flag tests as set. *)
Lemma atty_zero_has (flag : Z) :
  negb (atty_of hdr w =? 0) = false -> atty_has (atty_of hdr w) flag = false.
Proof.
  intros H. apply negb_false_iff, Z.eqb_eq in H.
  unfold atty_has. rewrite H. reflexivity.
Qed.

(** X13. [ptmx] is never used while it is unassigned: every relay task is
    started on the value [pts_open] returned, and after [pts_open] was
    called.  This holds whatever values the [ATTY_*] flags have. *)
Theorem relay_uses_opened_master :
  Forall (fun e => is_relay_task e = true ->
                   ptmx_of e = Some (fst (w_pts_open w)))
    (run_log hdr w) /\
  (existsb is_relay_task (run_log hdr w) = true ->
   precedes is_pts_open is_relay_task (run_log hdr w) = true).
Proof.
  unfold run_log.
  destruct (run_shapes hdr w)
    as [(st & _ & E) | [(s & prints & _ & E & Hp) | [_ E]]];
    rewrite E; cbn [fst snd log];
    [| | split; [apply Forall_nil | discriminate]].
  - open_log.
    destruct (negb (atty_of hdr w =? 0)) eqn:Hany.
    + split_ifs; cbn [app map fst snd];
        (split; [| intros H; cbn in H; first [discriminate H | reflexivity]]);
        repeat (apply Forall_cons;
                [intros H; cbn in H; first [discriminate H | reflexivity] |]);
        apply Forall_nil.
    + rewrite !(atty_zero_has _ Hany).
      split_ifs; cbn [app map fst snd];
        (split; [| intros H; cbn in H; discriminate H]);
        repeat (apply Forall_cons; [intros H; cbn in H; discriminate H |]);
        apply Forall_nil.
  - split.
    + eapply Forall_impl; [| apply prints_have_no_socket, Hp].
      intros e [_ He] H. destruct e; cbn in H, He; first [discriminate H | discriminate He].
    + rewrite (prints_no_relay _ Hp). discriminate.
Qed.

(** X14. Which relay tasks a run starts once the daemon has let it in:
    the input pump exactly when stdin is a terminal, the resize watcher
    (on stdout) and then the output pump exactly when stdout is a terminal,
    the input pump first; whether stderr is a terminal makes no difference. *)
Theorem relay_tasks_started :
  atty_flags_independent hdr ->
  granted hdr w ->
  let ptmx := fst (w_pts_open w) in
  filter is_relay_task (run_log hdr w) =
    (if w_isatty w STDIN_FILENO then [EvPumpStdinAsync ptmx] else [])
    ++ (if w_isatty w STDOUT_FILENO
        then [EvWatchSigwinchAsync STDOUT_FILENO ptmx; EvPumpStdoutBlocking ptmx]
        else []).
Proof.
  intros indep Hg ptmx.
  destruct (granted_run hdr w Hg) as [Hc Hack].
  destruct (connected_run hdr w Hc) as (st & _ & -> & _).
  by_streams hdr w indep; rewrite Hack; reflexivity.
Qed.

(** X15. The daemon socket is closed once, as the last call, on a run the
    daemon lets in; on a denied run [su_client_main] returns without closing
    anything. *)
Theorem socket_closed_only_when_granted (v : Z) :
  ack_read (run_log hdr w) = Some v ->
  closes (run_log hdr w) = (if v =? 0 then [w_connect_daemon w] else []) /\
  (v = 0 -> exists pre, run_log hdr w = pre ++ [EvClose (w_connect_daemon w)]).
Proof.
  intros Hack.
  destruct (ack_read_run hdr w v Hack) as [Hc <-].
  destruct (connected_run hdr w Hc) as (st & _ & -> & _).
  split.
  - open_log. destruct (w_read_int w 0 =? 0); cbn [negb]; split_ifs; reflexivity.
  - intros Hz. open_log. rewrite Hz. cbn [Z.eqb negb].
    split_ifs; cbn [app map]; cut_log.
Qed.

(** X16. The value [pts_open] returns is not looked at: when it reports
    failure with a negative value the run goes on all the same, sends what
    the name buffer holds and the three descriptors, reads the ack, and on
    a run the daemon lets in starts the pumps on that negative value. *)
Theorem pts_open_failure_ignored :
  atty_flags_independent hdr ->
  connected hdr w ->
  any_tty w = true ->
  fst (w_pts_open w) < 0 ->
  (exists code, run_result hdr w = Val code) /\
  slave_path_sent (run_log hdr w) = Some (snd (w_pts_open w)) /\
  List.length (sent_fds (run_log hdr w)) = 3%nat /\
  ack_read (run_log hdr w) = Some (w_read_int w 0) /\
  (w_read_int w 0 = 0 ->
   Forall (fun e => is_relay_task e = true -> exists m, ptmx_of e = Some m /\ m < 0)
     (run_log hdr w) /\
   existsb is_relay_task (run_log hdr w)
   = (w_isatty w STDIN_FILENO || w_isatty w STDOUT_FILENO)%bool).
Proof.
  intros indep Hc Hany Hneg.
  destruct (connected_run hdr w Hc) as (st & _ & -> & ->).
  split; [eexists; reflexivity |].
  revert Hany.
  by_streams hdr w indep; cbn [negb orb]; intros Hany; try discriminate Hany;
    (split; [destruct (negb (w_read_int w 0 =? 0)); reflexivity |]);
    (split; [destruct (negb (w_read_int w 0 =? 0)); reflexivity |]);
    (split; [destruct (negb (w_read_int w 0 =? 0)); reflexivity |]);
    intros Hz; rewrite Hz; cbn [Z.eqb negb app map fst snd];
    (split; [| reflexivity]);
    repeat (apply Forall_cons;
            [intros H; cbn in H; first [discriminate H | eexists; split; [reflexivity | exact Hneg]] |]);
    apply Forall_nil.
Qed.

End Descriptors.

(** ** The further properties at concrete runs *)

(** SIGWINCH keeps its handler through arming and teardown. *)
Lemma other_signals_untouched_witness :
  ~ In 28 terminating_signals /\
  disposition (exec (setup_sighandlers sighandler_ptr) winch_proc) 28
  = SIG_FN sighandler_ptr /\
  disposition (exec (sighandler SIGINT) winch_proc) 28 = SIG_FN sighandler_ptr.
Proof.
  assert (Hout : ~ In 28 terminating_signals).
  { cbn. intros H. repeat (destruct H as [H | H]; [discriminate H |]). exact H. }
  destruct (other_signals_untouched winch_proc sighandler_ptr SIGINT 28 Hout)
    as [Hs Ht].
  split; [exact Hout |].
  rewrite Hs, Ht. split; reflexivity.
Defined.

(** [su -h]. *)
Lemma exit_status_cases_witness :
  run_result sample_headers help_world = Exited 0 /\
  exists text, run_log sample_headers help_world = [EvPrint STDOUT_FILENO text].
Proof.
  assert (Hr : run_result sample_headers help_world = Exited 0) by reflexivity.
  split; [exact Hr |].
  destruct (exit_status_cases sample_headers help_world 0 Hr) as [[_ H] | [H _]].
  - exact H.
  - discriminate H.
Defined.

(** [su -p -u]. *)
Lemma unknown_option_usage_witness :
  forallb answer_continues (firstn 1 (w_getopt stray_option_world)) = true /\
  option_continues "u" = false /\
  option_reports "u" = false /\
  run_result sample_headers stray_option_world = Exited 2.
Proof.
  repeat (split; [reflexivity |]).
  unfold run_result.
  rewrite (unknown_option_usage sample_headers stray_option_world
             (firstn 1 (w_getopt stray_option_world)) []
             (nth 1 (w_getopt stray_option_world)
                {| go_c := None; go_optarg := EmptyString; go_optind := 0; go_argv := [] |})
             "u"%char eq_refl eq_refl eq_refl eq_refl eq_refl).
  reflexivity.
Defined.

(** [su -l -V]. *)
Lemma help_and_version_witness :
  forallb answer_continues (firstn 1 (w_getopt version_world)) = true /\
  option_reports "V" = true /\
  run sample_headers version_world =
    (Exited 0,
     {| log := [EvPrint STDOUT_FILENO ("1600" ++ nl)%string];
        stdin_raw := false; killed_by := None |}).
Proof.
  repeat (split; [reflexivity |]).
  exact (help_and_version sample_headers version_world
           (firstn 1 (w_getopt version_world)) []
           (nth 1 (w_getopt version_world)
              {| go_c := None; go_optarg := EmptyString; go_optind := 0; go_argv := [] |})
           "V"%char eq_refl eq_refl eq_refl eq_refl).
Defined.

(** [su -s /bin/bash -p -mm -c id -u]. *)
Lemma flags_from_options_witness :
  connected sample_headers command_world /\
  exists u, scalars_sent (run_log sample_headers command_world) = Some [u; 0; 1; 1].
Proof.
  assert (Hc : connected sample_headers command_world) by reflexivity.
  split; [exact Hc |].
  exact (flags_from_options sample_headers command_world Hc).
Defined.

Lemma request_strings_witness :
  connected sample_headers command_world /\
  sent_strings (run_log sample_headers command_world)
  = ["/bin/bash"; "id -u"; EmptyString].
Proof.
  assert (Hc : connected sample_headers command_world) by reflexivity.
  split; [exact Hc |].
  destruct (request_strings sample_headers command_world Hc) as (cmd & Hsent & Hcmd).
  rewrite Hsent.
  assert (E : cmd = "id -u") by (injection Hcmd as <-; reflexivity).
  rewrite E. reflexivity.
Defined.


(** Plain [su]. *)
Lemma default_target_is_root_witness :
  connected sample_headers (sample_world false false false 0) /\
  user_argument sample_headers (sample_world false false false 0) = None /\
  uid_sent (run_log sample_headers (sample_world false false false 0)) = Some 0.
Proof.
  assert (Hc : connected sample_headers (sample_world false false false 0))
    by reflexivity.
  split; [exact Hc |]. split; [reflexivity |].
  exact (default_target_is_root sample_headers _ Hc eq_refl).
Defined.

(** [su - 2000]. *)
Lemma bare_dash_consumed_witness :
  dash_given sample_headers (dash_world "2000") = true /\
  uid_sent (run_log sample_headers (dash_world "2000")) = Some 2000.
Proof.
  split; [reflexivity |].
  exact (bare_dash_consumed sample_headers (dash_world "2000")
           {| su_req := su_req_init sample_headers; optind := 1;
              argv := ["su"; "-"; "2000"] |} eq_refl eq_refl).
Defined.

(** [su 2000x]. *)
Lemma numeric_uid_witness :
  user_argument sample_headers (user_world "2000x") = Some ("2000" ++ "x")%string /\
  w_getpwnam (user_world "2000x") ("2000" ++ "x")%string = None /\
  all_digits "2000" = true /\
  starts_with_digit "x" = false /\
  digits "2000" 0 < 2 ^ 31 /\
  uid_sent (run_log sample_headers (user_world "2000x")) = Some 2000.
Proof.
  assert (Hsmall : digits "2000" 0 < 2 ^ 31) by (vm_compute; reflexivity).
  repeat (split; [first [reflexivity | exact Hsmall] |]).
  exact (numeric_uid sample_headers (user_world "2000x") "2000" "x"
           eq_refl eq_refl eq_refl eq_refl eq_refl Hsmall).
Defined.

(** All three streams on a terminal. *)
Lemma relay_tasks_started_witness :
  atty_flags_independent sample_headers /\
  granted sample_headers (sample_world true true true 0) /\
  filter is_relay_task (run_log sample_headers (sample_world true true true 0)) =
    [EvPumpStdinAsync 4; EvWatchSigwinchAsync STDOUT_FILENO 4; EvPumpStdoutBlocking 4].
Proof.
  assert (Hg : granted sample_headers (sample_world true true true 0)) by reflexivity.
  split; [exact sample_flags_independent |]. split; [exact Hg |].
  exact (relay_tasks_started sample_headers _ sample_flags_independent Hg).
Defined.

(** A run the daemon lets in, and one it turns down. *)
Lemma socket_closed_only_when_granted_witness :
  ack_read (run_log sample_headers (sample_world false false false 0)) = Some 0 /\
  closes (run_log sample_headers (sample_world false false false 0)) = [3] /\
  ack_read (run_log sample_headers (sample_world false false false 13)) = Some 13 /\
  closes (run_log sample_headers (sample_world false false false 13)) = [].
Proof.
  destruct (socket_closed_only_when_granted sample_headers
              (sample_world false false false 0) 0 eq_refl) as [H0 _].
  destruct (socket_closed_only_when_granted sample_headers
              (sample_world false false false 13) 13 eq_refl) as [H13 _].
  split; [reflexivity |]. split; [exact H0 |].
  split; [reflexivity |]. exact H13.
Defined.

(** [pts_open] returns -1 and leaves the buffer empty. *)
Lemma pts_open_failure_ignored_witness :
  atty_flags_independent sample_headers /\
  connected sample_headers no_pty_world /\
  any_tty no_pty_world = true /\
  fst (w_pts_open no_pty_world) < 0 /\
  slave_path_sent (run_log sample_headers no_pty_world) = Some EmptyString /\
  existsb is_relay_task (run_log sample_headers no_pty_world) = true.
Proof.
  assert (Hc : connected sample_headers no_pty_world) by reflexivity.
  assert (Hneg : fst (w_pts_open no_pty_world) < 0) by (vm_compute; reflexivity).
  destruct (pts_open_failure_ignored sample_headers no_pty_world
              sample_flags_independent Hc eq_refl Hneg)
    as (_ & Hslave & _ & _ & Hrelay).
  destruct (Hrelay eq_refl) as [_ Hstarted].
  split; [exact sample_flags_independent |]. split; [exact Hc |].
  split; [reflexivity |]. split; [exact Hneg |].
  split; [exact Hslave |]. exact Hstarted.
Defined.
